(** * LS-8 emulator: a shallow embedding of [ls8/ram.js] and [ls8/cpu.js]

    The emulator is a JavaScript class [CPU] that owns a register array, a
    program counter, an instruction register and a flags register, and drives
    a fetch/decode/execute cycle against a [RAM] object.  The development
    below follows the two source files method by method.

    ** Conventions of the embedding

    - A JavaScript value that can sit in a register or a memory cell is
      [undefined], [NaN] or a finite number ([value]).  Numbers are exact
      rationals in canonical form ([Qc]): [+], [-], [*], [/] and [%] agree
      with the IEEE operations of the source wherever the IEEE result is
      exact, in particular on every integer of magnitude below [2^53].
      Rounding, infinities and the sign of zero are outside the model.
    - A JavaScript array or object is a map from property keys to values.  On
      the values above the key conversion is injective, so an object is a
      function from [value]; a missing property reads as [undefined], exactly
      as the source observes it.  Writing past the end of an array creates
      the property, as JavaScript does.
    - [this.reg.PC], [this.reg.IR] and [this.reg.FL] are named properties of
      the register array.  No operand converts to the keys [PC], [IR] or
      [FL], so they are separate fields of the processor record.
    - The mutable object [this] is threaded explicitly: a method is a function
      from the processor state to the new state (and a return value when the
      source has one).
    - [console.log] and [console.error] append to two output lists. *)

From Stdlib Require Import ZArith QArith Qcanon Lia String List Bool.
Import ListNotations.
Open Scope Z_scope.

(** ** JavaScript values and numeric operators *)

Inductive value : Type :=
| VUndef                (* undefined *)
| VNaN                  (* the number NaN *)
| VNum (q : Qc).        (* a finite number *)

Definition num (z : Z) : value := VNum (Q2Qc (inject_Z z)).

Definition value_eq_dec (a b : value) : {a = b} + {a <> b}.
Proof.
  destruct a as [| |p], b as [| |q];
    try (left; reflexivity); try (right; discriminate).
  destruct (Qc_eq_dec p q) as [e|n].
  - left; f_equal; exact e.
  - right; intro H; apply n; injection H; trivial.
Defined.

(** [a === b]: [undefined] equals itself, [NaN] equals nothing, numbers are
    compared by value. *)
Definition strict_eq (a b : value) : bool :=
  match a, b with
  | VUndef, VUndef => true
  | VNum p, VNum q => Qc_eq_bool p q
  | _, _ => false
  end.

(** Binary [+] on numbers and [undefined] ([ToNumber undefined] is [NaN]). *)
Definition js_add (a b : value) : value :=
  match a, b with
  | VNum p, VNum q => VNum (p + q)%Qc
  | _, _ => VNaN
  end.

Definition js_sub (a b : value) : value :=
  match a, b with
  | VNum p, VNum q => VNum (p - q)%Qc
  | _, _ => VNaN
  end.

Definition js_mul (a b : value) : value :=
  match a, b with
  | VNum p, VNum q => VNum (p * q)%Qc
  | _, _ => VNaN
  end.

(** Truncation towards zero of a rational. *)
Definition trunc (q : Qc) : Z := Z.quot (Qnum (this q)) (Zpos (Qden (this q))).

(** [a / b].  The source guards every division by [b === 0]; the value given
    here for a zero divisor (JavaScript yields an infinity or [NaN]) is never
    requested by [alu]. *)
Definition js_div (a b : value) : value :=
  match a, b with
  | VNum p, VNum q => if Qc_eq_bool q 0%Qc then VNaN else VNum (p / q)%Qc
  | _, _ => VNaN
  end.

(** [a % b]: the remainder has the sign of the dividend,
    [a - b * trunc (a / b)].  Zero divisor as for [js_div]. *)
Definition js_mod (a b : value) : value :=
  match a, b with
  | VNum p, VNum q =>
      if Qc_eq_bool q 0%Qc then VNaN
      else VNum (p - q * Q2Qc (inject_Z (trunc (p / q))))%Qc
  | _, _ => VNaN
  end.

(** Signed 32-bit wrap-around. *)
Definition wrap32 (z : Z) : Z := (z + 2^31) mod 2^32 - 2^31.

(** [ToInt32]: [undefined] and [NaN] become 0, a number is truncated and
    wrapped. *)
Definition ToInt32 (a : value) : Z :=
  match a with
  | VNum q => wrap32 (trunc q)
  | _ => 0
  end.

Definition js_and (a b : value) : value := num (Z.land (ToInt32 a) (ToInt32 b)).
Definition js_or  (a b : value) : value := num (Z.lor  (ToInt32 a) (ToInt32 b)).
Definition js_xor (a b : value) : value := num (Z.lxor (ToInt32 a) (ToInt32 b)).
Definition js_not (a : value)   : value := num (Z.lnot (ToInt32 a)).

(** [a >> b]: the shift count is [ToUint32 b] taken modulo 32. *)
Definition js_shr (a b : value) : value :=
  num (Z.shiftr (ToInt32 a) ((ToInt32 b) mod 32)).

(** ** Objects and arrays *)

(** An object whose properties hold values of type [A]. *)
Definition obj (A : Type) : Type := value -> A.

Definition obj_set {A : Type} (o : obj A) (k : value) (v : A) : obj A :=
  fun k' => if value_eq_dec k' k then v else o k'.

(** Is the key an array index below [n]? *)
Definition is_index (n : Z) (k : value) : bool :=
  match k with
  | VNum q =>
      (Pos.eqb (Qden (this q)) 1) && (0 <=? Qnum (this q)) && (Qnum (this q) <? n)
  | _ => false
  end.

(** [new Array(n).fill(v)]. *)
Definition array_fill (n : Z) (v : value) : obj value :=
  fun k => if is_index n k then v else VUndef.

(** ** ram.js *)

Module RAM.

Record t : Type := mk { mem : obj value }.

(** [constructor(size)] *)
Definition new (size : Z) : t := {| mem := array_fill size (num 0) |}.

(** [write(MAR, MDR)]: [this.mem[MAR] = MDR] *)
Definition write (this : t) (MAR MDR : value) : t :=
  {| mem := obj_set (mem this) MAR MDR |}.

(** [read(MAR)]: [return this.mem[MAR]] *)
Definition read (this : t) (MAR : value) : value := mem this MAR.

End RAM.

(** ** cpu.js *)

(** Instruction opcodes. *)
Definition HLT  : value := num 0x01. (* 0b00000001 *)
Definition ADD  : value := num 0xB3. (* 0b10110011 *)
Definition AND  : value := num 0xB3. (* 0b10110011 *)
Definition CALL : value := num 0x48. (* 0b01001000 *)
Definition CMP  : value := num 0xA0. (* 0b10100000 *)
Definition DEC  : value := num 0x79. (* 0b01111001 *)
Definition DIV  : value := num 0xAB. (* 0b10101011 *)
Definition INC  : value := num 0x78. (* 0b01111000 *)
Definition MOD  : value := num 0xAC. (* 0b10101100 *)
Definition MUL  : value := num 0xAA. (* 0b10101010 *)
Definition NOT  : value := num 0x70. (* 0b01110000 *)
Definition NOP  : value := num 0x00. (* 0b00000000 *)
Definition LDI  : value := num 0x99. (* 0b10011001 *)
Definition OR   : value := num 0xB1. (* 0b10110001 *)
Definition PRN  : value := num 0x43. (* 0b01000011 *)
Definition PUSH : value := num 0x4D. (* 0b01001101 *)
Definition POP  : value := num 0x4C. (* 0b01001100 *)
Definition RET  : value := num 0x09. (* 0b00001001 *)
Definition SUB  : value := num 0xA9. (* 0b10101001 *)
Definition XOR  : value := num 0xB2. (* 0b10110010 *)

Definition SP : value := num 0x07.   (* Stack pointer R7 *)
Definition FL_EQ : value := num 1.   (* 0b00000001 *)
Definition FL_GT : value := num 2.   (* 0b00000010 *)
Definition FL_LT : value := num 4.   (* 0b00000100 *)

(** The methods a branch-table entry can hold ([this.HLT], [this.ADD], ...). *)
Inductive handler : Type :=
| this_HLT | this_ADD | this_AND | this_CALL | this_CMP | this_DEC | this_DIV
| this_INC | this_MOD | this_MUL | this_NOT | this_NOP | this_LDI | this_OR
| this_PRN | this_PUSH | this_POP | this_RET | this_SUB | this_XOR.

(** What [console.error] is given: a string literal, or a literal
    concatenated with a value. *)
Inductive text : Type :=
| Str (s : string)
| Cat (s : string) (v : value).

Module CPU.

Record t : Type := mk {
  ram : RAM.t;
  reg : obj value;                      (* this.reg[0..7] *)
  PC : value;                           (* this.reg.PC *)
  IR : value;                           (* this.reg.IR *)
  FL : value;                           (* this.reg.FL *)
  branchTable : obj (option handler);
  clock : bool;                         (* is the interval timer armed? *)
  stdout : list value;                  (* console.log *)
  stderr : list text                    (* console.error *)
}.

Definition set_ram (this : t) (r : RAM.t) : t :=
  mk r (reg this) (PC this) (IR this) (FL this) (branchTable this)
     (clock this) (stdout this) (stderr this).
Definition set_reg (this : t) (k v : value) : t :=
  mk (ram this) (obj_set (reg this) k v) (PC this) (IR this) (FL this)
     (branchTable this) (clock this) (stdout this) (stderr this).
Definition set_PC (this : t) (v : value) : t :=
  mk (ram this) (reg this) v (IR this) (FL this) (branchTable this)
     (clock this) (stdout this) (stderr this).
Definition set_IR (this : t) (v : value) : t :=
  mk (ram this) (reg this) (PC this) v (FL this) (branchTable this)
     (clock this) (stdout this) (stderr this).
Definition set_FL (this : t) (v : value) : t :=
  mk (ram this) (reg this) (PC this) (IR this) v (branchTable this)
     (clock this) (stdout this) (stderr this).
Definition set_branchTable (this : t) (bt : obj (option handler)) : t :=
  mk (ram this) (reg this) (PC this) (IR this) (FL this) bt
     (clock this) (stdout this) (stderr this).
Definition set_clock (this : t) (b : bool) : t :=
  mk (ram this) (reg this) (PC this) (IR this) (FL this) (branchTable this)
     b (stdout this) (stderr this).
Definition console_log (this : t) (v : value) : t :=
  mk (ram this) (reg this) (PC this) (IR this) (FL this) (branchTable this)
     (clock this) (stdout this ++ [v]) (stderr this).
Definition console_error (this : t) (m : text) : t :=
  mk (ram this) (reg this) (PC this) (IR this) (FL this) (branchTable this)
     (clock this) (stdout this) (stderr this ++ [m]).

(** [setupBranchTable()]: the assignments in source order, later ones
    overwriting earlier ones on the same key. *)
Definition setupBranchTable (this : t) : t :=
  let bt : obj (option handler) := fun _ => None in
  let bt := obj_set bt HLT  (Some this_HLT) in
  let bt := obj_set bt ADD  (Some this_ADD) in
  let bt := obj_set bt AND  (Some this_AND) in
  let bt := obj_set bt CALL (Some this_CALL) in
  let bt := obj_set bt CMP  (Some this_CMP) in
  let bt := obj_set bt DEC  (Some this_DEC) in
  let bt := obj_set bt DIV  (Some this_DIV) in
  let bt := obj_set bt INC  (Some this_INC) in
  let bt := obj_set bt MOD  (Some this_MOD) in
  let bt := obj_set bt MUL  (Some this_MUL) in
  let bt := obj_set bt NOT  (Some this_NOT) in
  let bt := obj_set bt NOP  (Some this_NOP) in
  let bt := obj_set bt LDI  (Some this_LDI) in
  let bt := obj_set bt OR   (Some this_OR) in
  let bt := obj_set bt PRN  (Some this_PRN) in
  let bt := obj_set bt PUSH (Some this_PUSH) in
  let bt := obj_set bt POP  (Some this_POP) in
  let bt := obj_set bt RET  (Some this_RET) in
  let bt := obj_set bt SUB  (Some this_SUB) in
  let bt := obj_set bt XOR  (Some this_XOR) in
  set_branchTable this bt.

(** [constructor(ram)] *)
Definition new (ram : RAM.t) : t :=
  let this :=
    mk ram (array_fill 8 (num 0)) (num 0) (num 0) (num 0)
       (fun _ => None) false [] [] in
  let this := set_reg this SP (num 0xf4) in
  setupBranchTable this.

(** [poke(address, value)] *)
Definition poke (this : t) (address v : value) : t :=
  set_ram this (RAM.write (ram this) address v).

(** [startClock()]: arms the interval that calls [tick]. *)
Definition startClock (this : t) : t := set_clock this true.

(** [stopClock()]: [clearInterval(this.clock)]. *)
Definition stopClock (this : t) : t := set_clock this false.

(** [setFlag(flag, value)] *)
Definition setFlag (this : t) (flag : value) (v : bool) : t :=
  if v then set_FL this (js_or (FL this) flag)
  else set_FL this (js_and (FL this) (js_not flag)).

(** [alu(op, regA, regB)]: a [switch] over the operation name, without a
    default case. *)
Definition alu (this : t) (op : string) (regA regB : value) : t :=
  if String.eqb op "ADD" then
    set_reg this regA (js_add (reg this regA) (reg this regB))
  else if String.eqb op "AND" then
    set_reg this regA (js_and (reg this regA) (reg this regB))
  else if String.eqb op "OR" then
    set_reg this regA (js_or (reg this regA) (reg this regB))
  else if String.eqb op "NOT" then
    set_reg this regA (js_not (reg this regA))
  else if String.eqb op "XOR" then
    set_reg this regA (js_xor (reg this regA) (reg this regB))
  else if String.eqb op "DEC" then
    set_reg this regA (js_sub (reg this regA) (num 1))
  else if String.eqb op "DIV" then
    if strict_eq (reg this regB) (num 0) then
      stopClock (console_error this (Str "2nd param could not be 0"))
    else set_reg this regA (js_div (reg this regA) (reg this regB))
  else if String.eqb op "INC" then
    set_reg this regA (js_add (reg this regA) (num 1))
  else if String.eqb op "MOD" then
    if strict_eq (reg this regB) (num 0) then
      stopClock (console_error this (Str "2nd param could not be 0"))
    else set_reg this regA (js_mod (reg this regA) (reg this regB))
  else if String.eqb op "MUL" then
    set_reg this regA (js_mul (reg this regA) (reg this regB))
  else if String.eqb op "SUB" then
    set_reg this regA (js_sub (reg this regA) (reg this regB))
  else if String.eqb op "CMP" then
    setFlag this FL_EQ (strict_eq (reg this regA) (reg this regB))
  else this.

(** *** Instruction handlers

    A handler that has no [return] statement yields the new state only; the
    dispatcher [call] below supplies [undefined] as its result. *)

Definition ADD (this : t) (regA regB : value) : t := alu this "ADD" regA regB.
Definition AND (this : t) (regA regB : value) : t := alu this "AND" regA regB.
Definition OR  (this : t) (regA regB : value) : t := alu this "OR" regA regB.
Definition NOT (this : t) (regA : value) : t := alu this "NOT" regA VUndef.
Definition XOR (this : t) (regA regB : value) : t := alu this "XOR" regA regB.
Definition DEC (this : t) (regA : value) : t := alu this "DEC" regA VUndef.
Definition DIV (this : t) (regA regB : value) : t := alu this "DIV" regA regB.
Definition INC (this : t) (regA : value) : t := alu this "INC" regA VUndef.
Definition MOD (this : t) (regA regB : value) : t := alu this "MOD" regA regB.
Definition MUL (this : t) (regA regB : value) : t := alu this "MUL" regA regB.
Definition NOP (this : t) : t := this.
Definition HLT (this : t) : t := stopClock this.
Definition LDI (this : t) (regNum v : value) : t := set_reg this regNum v.
Definition PRN (this : t) (regA : value) : t := console_log this (reg this regA).
Definition SUB (this : t) (regA regB : value) : t := alu this "SUB" regA regB.

(** [pushHelper(value)] *)
Definition pushHelper (this : t) (v : value) : t :=
  let this := set_reg this SP (js_sub (reg this SP) (num 1)) in
  set_ram this (RAM.write (ram this) (reg this SP) v).

(** [CALL(regNum)]: returns the new program counter. *)
Definition CALL (this : t) (regNum : value) : t * value :=
  let this := pushHelper this (js_add (PC this) (num 2)) in
  (this, reg this regNum).

(** [popHelper()] *)
Definition popHelper (this : t) : t * value :=
  let v := RAM.read (ram this) (reg this SP) in
  let this := set_reg this SP (js_sub (reg this SP) (num 1)) in
  (this, v).

(** [RET()]: returns the popped address. *)
Definition RET (this : t) : t * value :=
  let '(this, nextPC) := popHelper this in
  (this, nextPC).

(** [POP(regNum)] *)
Definition POP (this : t) (regNum : value) : t :=
  let '(this, v) := popHelper this in
  set_reg this regNum v.

(** [PUSH(regNum)] *)
Definition PUSH (this : t) (regNum : value) : t :=
  let v := reg this regNum in
  pushHelper this v.

Definition CMP (this : t) (regA regB : value) : t := alu this "CMP" regA regB.

(** [handler.call(this, operandA, operandB)]: a handler with fewer
    parameters ignores the extra arguments. *)
Definition call (h : handler) (this : t) (operandA operandB : value)
  : t * value :=
  match h with
  | this_HLT  => (HLT this, VUndef)
  | this_ADD  => (ADD this operandA operandB, VUndef)
  | this_AND  => (AND this operandA operandB, VUndef)
  | this_CALL => CALL this operandA
  | this_CMP  => (CMP this operandA operandB, VUndef)
  | this_DEC  => (DEC this operandA, VUndef)
  | this_DIV  => (DIV this operandA operandB, VUndef)
  | this_INC  => (INC this operandA, VUndef)
  | this_MOD  => (MOD this operandA operandB, VUndef)
  | this_MUL  => (MUL this operandA operandB, VUndef)
  | this_NOT  => (NOT this operandA, VUndef)
  | this_NOP  => (NOP this, VUndef)
  | this_LDI  => (LDI this operandA operandB, VUndef)
  | this_OR   => (OR this operandA operandB, VUndef)
  | this_PRN  => (PRN this operandA, VUndef)
  | this_PUSH => (PUSH this operandA, VUndef)
  | this_POP  => (POP this operandA, VUndef)
  | this_RET  => RET this
  | this_SUB  => (SUB this operandA operandB, VUndef)
  | this_XOR  => (XOR this operandA operandB, VUndef)
  end.

(** [(IR >> 6) & 0b00000011] *)
Definition operandCount (ir : value) : value := js_and (js_shr ir (num 6)) (num 3).

(** [tick()]: one fetch/decode/execute cycle. *)
Definition tick (this : t) : t :=
  let this := set_IR this (RAM.read (ram this) (PC this)) in
  match branchTable this (IR this) with
  | None =>
      let this := console_error this (Cat "Unknown opcode" (IR this)) in
      stopClock this
  | Some h =>
      let operandA := RAM.read (ram this) (js_add (PC this) (num 1)) in
      let operandB := RAM.read (ram this) (js_add (PC this) (num 2)) in
      let '(this, nextPC) := call h this operandA operandB in
      match nextPC with
      | VUndef =>
          set_PC this (js_add (PC this) (js_add (operandCount (IR this)) (num 1)))
      | _ => set_PC this nextPC
      end
  end.

(** The interval armed by [startClock] calls [tick] once per firing for as
    long as it has not been cleared; [run n] is [n] firings. *)
Fixpoint run (n : nat) (this : t) : t :=
  match n with
  | O => this
  | S k => if clock this then run k (tick this) else this
  end.

End CPU.

(** ** Vocabulary of the statements *)

(** Bit [i] of a flags value, seen as the 32-bit integer the bitwise
    operators of [setFlag] work on. *)
Definition flag_bit (fl : value) (i : Z) : bool := Z.testbit (ToInt32 fl) i.

(** The range of a signed 32-bit integer. *)
Definition int32 (z : Z) : Prop := - 2^31 <= z < 2^31.

(** The opcode byte and the two operand bytes a cycle reads. *)
Definition opcode_at (this : CPU.t) : value :=
  RAM.read (CPU.ram this) (CPU.PC this).
Definition operandA_at (this : CPU.t) : value :=
  RAM.read (CPU.ram this) (js_add (CPU.PC this) (num 1)).
Definition operandB_at (this : CPU.t) : value :=
  RAM.read (CPU.ram this) (js_add (CPU.PC this) (num 2)).

(** Loading a program: one [poke] per byte, from [address] upwards. *)
Fixpoint pokes (this : CPU.t) (address : Z) (bytes : list Z) : CPU.t :=
  match bytes with
  | [] => this
  | b :: bs => pokes (CPU.poke this (num address) (num b)) (address + 1) bs
  end.

(** A freshly constructed processor on 256 bytes of memory. *)
Definition cpu0 : CPU.t := CPU.new (RAM.new 256).

(** [LDI R0,8; LDI R1,9; MUL R0,R1; PRN R0; HLT] *)
Definition mult_program : list Z :=
  [0x99; 0; 8; 0x99; 1; 9; 0xAA; 0; 1; 0x43; 0; 0x01].

(** [LDI R0,5; PUSH R0; LDI R0,0; POP R0; PRN R0; HLT] *)
Definition stack_program : list Z :=
  [0x99; 0; 5; 0x4D; 0; 0x99; 0; 0; 0x4C; 0; 0x43; 0; 0x01].

(** [CALL R1] at address 0 with [R1 = 6], [RET] at address 6. *)
Definition call_program : list Z := [0x48; 1; 0x01; 0; 0; 0; 0x09].
Definition call_cpu : CPU.t :=
  CPU.LDI (pokes cpu0 0 call_program) (num 1) (num 6).

(** [DIV R0,R1] with [R0 = 5] and [R1 = 0]. *)
Definition div_cpu : CPU.t :=
  CPU.LDI (pokes cpu0 0 [0xAB; 0; 1; 0x01]) (num 0) (num 5).

(** A processor whose first opcode byte, [0xFF], has no handler. *)
Definition bad_cpu : CPU.t := pokes cpu0 0 [0xFF].

(** A processor with the Greater-Than and Less-Than bits set. *)
Definition flags_cpu : CPU.t := CPU.set_FL cpu0 (num 6).

(** A value a program byte can take. *)
Definition byte (z : Z) : Prop := 0 <= z < 256.

(** The keys [setupBranchTable] assigns, in source order. *)
Definition opcodes : list value :=
  [HLT; ADD; AND; CALL; CMP; DEC; DIV; INC; MOD; MUL;
   NOT; NOP; LDI; OR; PRN; PUSH; POP; RET; SUB; XOR].

(** The operation names [alu] has a [case] for. *)
Definition alu_ops : list string :=
  ["ADD"; "AND"; "OR"; "NOT"; "XOR"; "DEC"; "DIV"; "INC"; "MOD"; "MUL";
   "SUB"; "CMP"]%string.

(** The number of parameters each handler method declares. *)
Definition arity (h : handler) : Z :=
  match h with
  | this_HLT | this_NOP | this_RET => 0
  | this_NOT | this_DEC | this_INC | this_PRN | this_PUSH | this_POP
  | this_CALL => 1
  | this_ADD | this_AND | this_OR | this_XOR | this_DIV | this_MOD
  | this_MUL | this_SUB | this_CMP | this_LDI => 2
  end.

(** [PRN R0; HLT] with 7 in register 0, and [PUSH R0] with 5 in register 0. *)
Definition prn_cpu : CPU.t :=
  CPU.LDI (pokes cpu0 0 [0x43; 0; 0x01]) (num 0) (num 7).
Definition push_cpu : CPU.t :=
  CPU.LDI (pokes cpu0 0 [0x4D; 0; 0x01]) (num 0) (num 5).

(** Registers 0 and 1 holding 7 and 2. *)
Definition arith_cpu : CPU.t :=
  CPU.LDI (CPU.LDI cpu0 (num 0) (num 7)) (num 1) (num 2).

(** A processor whose program counter points past the end of memory. *)
Definition off_cpu : CPU.t := CPU.set_PC cpu0 (num 256).

(** Projections of updated records, without touching the maps themselves. *)
Ltac cpu_simpl :=
  cbn [CPU.ram CPU.reg CPU.PC CPU.IR CPU.FL CPU.branchTable CPU.clock
       CPU.stdout CPU.stderr CPU.set_ram CPU.set_reg CPU.set_PC CPU.set_IR
       CPU.set_FL CPU.set_clock CPU.console_log CPU.console_error
       CPU.stopClock RAM.mem RAM.read RAM.write fst snd].

(** * Properties *)

(** ** Objects *)

Section Objects.

Context {A : Type}.

Lemma obj_set_same (o : obj A) (k : value) (v : A) : obj_set o k v k = v.
Proof. unfold obj_set. destruct (value_eq_dec k k); congruence. Qed.

Lemma obj_set_other (o : obj A) (k k' : value) (v : A) :
  k' <> k -> obj_set o k v k' = o k'.
Proof. unfold obj_set. intros H. destruct (value_eq_dec k' k); congruence. Qed.

End Objects.

(** ** Numbers *)

Lemma this_Q2Qc_inject (z : Z) : this (Q2Qc (inject_Z z)) = inject_Z z.
Proof.
  unfold Q2Qc. cbn [this]. apply Qred_identity.
  unfold inject_Z. cbn [Qnum Qden]. apply Z.gcd_1_r.
Qed.

Lemma num_inj (a b : Z) : num a = num b -> a = b.
Proof.
  intros H.
  apply (f_equal (fun v => match v with VNum q => this q | _ => 0%Q end)) in H.
  unfold num in H. rewrite !this_Q2Qc_inject in H.
  unfold inject_Z in H. congruence.
Qed.

Lemma trunc_inject (z : Z) : trunc (Q2Qc (inject_Z z)) = z.
Proof. unfold trunc. rewrite this_Q2Qc_inject. simpl. apply Z.quot_1_r. Qed.

Lemma js_add_num (a b : Z) : js_add (num a) (num b) = num (a + b).
Proof.
  unfold js_add, num. f_equal. apply Qc_is_canon.
  unfold Qcplus, Q2Qc. cbn [this].
  rewrite !Qred_correct, inject_Z_plus. reflexivity.
Qed.

Lemma js_sub_num (a b : Z) : js_sub (num a) (num b) = num (a - b).
Proof.
  unfold js_sub, num. f_equal. apply Qc_is_canon.
  unfold Qcminus, Qcplus, Qcopp, Q2Qc. cbn [this].
  rewrite !Qred_correct.
  unfold Z.sub. rewrite inject_Z_plus, inject_Z_opp. reflexivity.
Qed.

Lemma js_add_defined (a b : value) : js_add a b <> VUndef.
Proof. destruct a, b; discriminate. Qed.

Lemma js_sub_defined (a b : value) : js_sub a b <> VUndef.
Proof. destruct a, b; discriminate. Qed.

(** [===] is equality of values, except that [NaN] equals nothing. *)
Lemma strict_eq_true_iff (a b : value) :
  strict_eq a b = true <-> a = b /\ a <> VNaN.
Proof.
  destruct a as [| |p], b as [| |q]; simpl;
    try (split; [discriminate | intros [H1 H2]; congruence]).
  - split; [intros _; split; [reflexivity|discriminate] | reflexivity].
  - unfold Qc_eq_bool. destruct (Qc_eq_dec p q) as [e|n].
    + subst. split; [intros _; split; [reflexivity|discriminate] | reflexivity].
    + split; [discriminate | intros [H1 H2]; congruence].
Qed.

Lemma strict_eq_num_zero (a : value) : a = num 0 -> strict_eq a (num 0) = true.
Proof. intros ->. apply strict_eq_true_iff. split; [reflexivity|discriminate]. Qed.

(** ** 32-bit integers *)

Lemma wrap32_range (z : Z) : int32 (wrap32 z).
Proof.
  unfold int32, wrap32.
  pose proof (Z.mod_pos_bound (z + 2^31) (2^32)). lia.
Qed.

Lemma wrap32_small (z : Z) : int32 z -> wrap32 z = z.
Proof. unfold int32, wrap32. intros H. rewrite Z.mod_small; lia. Qed.

Lemma ToInt32_num (z : Z) : ToInt32 (num z) = wrap32 z.
Proof. unfold ToInt32, num. now rewrite trunc_inject. Qed.

Lemma ToInt32_range (a : value) : int32 (ToInt32 a).
Proof.
  destruct a; simpl; try apply wrap32_range; unfold int32; lia.
Qed.

Lemma ToInt32_num_small (z : Z) : int32 z -> ToInt32 (num z) = z.
Proof. intros H. rewrite ToInt32_num. now apply wrap32_small. Qed.

(** A 32-bit integer is one whose bits from 31 upwards are all equal: its
    arithmetic shift by 31 is [0] or [-1]. *)
Lemma int32_shiftr (z : Z) :
  int32 z <-> Z.shiftr z 31 = 0 \/ Z.shiftr z 31 = -1.
Proof.
  unfold int32. rewrite Z.shiftr_div_pow2 by lia.
  change (2 ^ 31) with 2147483648.
  pose proof (Z.div_mod z 2147483648 ltac:(lia)).
  pose proof (Z.mod_pos_bound z 2147483648 ltac:(lia)).
  lia.
Qed.

Lemma int32_lor (a b : Z) : int32 a -> int32 b -> int32 (Z.lor a b).
Proof.
  rewrite !int32_shiftr, Z.shiftr_lor.
  intros [-> | ->] [-> | ->]; simpl; auto.
Qed.

Lemma int32_land (a b : Z) : int32 a -> int32 b -> int32 (Z.land a b).
Proof.
  rewrite !int32_shiftr, Z.shiftr_land.
  intros [-> | ->] [-> | ->]; simpl; auto.
Qed.

Lemma int32_shiftr_6 (z : Z) : int32 z -> int32 (Z.shiftr z 6).
Proof.
  unfold int32. rewrite Z.shiftr_div_pow2 by lia.
  change (2 ^ 31) with 2147483648. change (2 ^ 6) with 64.
  pose proof (Z.div_mod z 64 ltac:(lia)).
  pose proof (Z.mod_pos_bound z 64 ltac:(lia)).
  lia.
Qed.

Lemma testbit_1 (i : Z) : i <> 0 -> Z.testbit 1 i = false.
Proof.
  intros H. destruct (Z.lt_trichotomy i 0) as [Hi | [Hi | Hi]].
  - now apply Z.testbit_neg_r.
  - contradiction.
  - apply Z.bits_above_log2; simpl; lia.
Qed.

Lemma testbit_lor_1 (x i : Z) :
  i <> 0 -> Z.testbit (Z.lor x 1) i = Z.testbit x i.
Proof.
  intros H. rewrite Z.lor_spec, testbit_1 by assumption. apply orb_false_r.
Qed.

Lemma testbit_land_not_1 (x i : Z) :
  i <> 0 -> Z.testbit (Z.land x (Z.lnot 1)) i = Z.testbit x i.
Proof.
  intros H. destruct (Z.lt_ge_cases i 0) as [Hi | Hi].
  - now rewrite !Z.testbit_neg_r.
  - rewrite Z.land_spec, Z.lnot_spec, testbit_1 by assumption.
    apply andb_true_r.
Qed.

(** The operand count of the source, [(IR >> 6) & 3], on integers. *)
Lemma operandCount_spec (ir : value) :
  CPU.operandCount ir = num (Z.land (Z.shiftr (ToInt32 ir) 6) 3).
Proof.
  unfold CPU.operandCount, js_and, js_shr.
  assert (H6 : ToInt32 (num 6) mod 32 = 6)
    by (rewrite ToInt32_num_small; [reflexivity | unfold int32; lia]).
  assert (H3 : ToInt32 (num 3) = 3)
    by (apply ToInt32_num_small; unfold int32; lia).
  rewrite H6, H3, ToInt32_num_small; [reflexivity|].
  apply int32_shiftr_6, ToInt32_range.
Qed.

(** ** Memory *)

(** A new memory reads zero at every address below its size and [undefined]
    elsewhere. *)
Lemma RAM_new_read (size : Z) (a : value) :
  RAM.read (RAM.new size) a = if is_index size a then num 0 else VUndef.
Proof. reflexivity. Qed.

(** C10.  A read of an address that has just been written returns the value
    written, and the write leaves what every other address reads as it was.
    The statement holds for every address the source accepts, the in-range
    ones among them. *)
Theorem RAM_read_after_write (m : RAM.t) (a v : value) :
  RAM.read (RAM.write m a v) a = v /\
  (forall b : value, b <> a -> RAM.read (RAM.write m a v) b = RAM.read m b).
Proof.
  unfold RAM.read, RAM.write. cbn [RAM.mem]. split.
  - apply obj_set_same.
  - intros b Hb. now apply obj_set_other.
Qed.

Lemma RAM_read_after_write_witness :
  num 11 <> num 10 /\
  RAM.read (RAM.write (RAM.new 256) (num 10) (num 42)) (num 10) = num 42 /\
  RAM.read (RAM.write (RAM.new 256) (num 10) (num 42)) (num 11)
  = RAM.read (RAM.new 256) (num 11).
Proof.
  assert (H : num 11 <> num 10) by (intros E; apply num_inj in E; lia).
  split; [exact H|]. split.
  - exact (proj1 (RAM_read_after_write (RAM.new 256) (num 10) (num 42))).
  - exact (proj2 (RAM_read_after_write (RAM.new 256) (num 10) (num 42))
             (num 11) H).
Defined.

(** ** The branch table *)

(** C8 as stated fails: the entry for [0xB3] is not the [ADD] handler. *)
Lemma branchTable_0xB3_not_ADD :
  CPU.branchTable cpu0 (num 0xB3) <> Some this_ADD.
Proof. vm_compute. discriminate. Qed.

(** C8, amended.  In the table built at construction the single entry for
    [0xB3], the opcode shared by ADD and AND, holds the AND handler: the
    assignment for AND comes after the one for ADD and overwrites it.  No
    key maps to the ADD handler, which is unreachable through dispatch. *)
Theorem branchTable_0xB3_is_AND (ram : RAM.t) :
  ADD = AND /\
  CPU.branchTable (CPU.new ram) (num 0xB3) = Some this_AND /\
  (forall k : value, CPU.branchTable (CPU.new ram) k <> Some this_ADD).
Proof.
  split; [reflexivity|]. split.
  - vm_compute. reflexivity.
  - intros k. unfold CPU.new, CPU.setupBranchTable.
    cbn [CPU.branchTable CPU.set_branchTable CPU.set_reg].
    unfold obj_set.
    repeat (match goal with
            | |- context [value_eq_dec k ?c] => destruct (value_eq_dec k c)
            end; try discriminate).
    contradiction.
Qed.

(** ** Frame properties of the handlers *)

Section Frames.

Variable this : CPU.t.

Lemma alu_PC op a b : CPU.PC (CPU.alu this op a b) = CPU.PC this.
Proof.
  unfold CPU.alu, CPU.setFlag.
  repeat match goal with
         | |- context [if ?c then _ else _] => destruct c
         end; reflexivity.
Qed.

Lemma alu_IR op a b : CPU.IR (CPU.alu this op a b) = CPU.IR this.
Proof.
  unfold CPU.alu, CPU.setFlag.
  repeat match goal with
         | |- context [if ?c then _ else _] => destruct c
         end; reflexivity.
Qed.

Lemma call_PC h a b : CPU.PC (fst (CPU.call h this a b)) = CPU.PC this.
Proof.
  destruct h; cbn [CPU.call fst];
    unfold CPU.ADD, CPU.AND, CPU.OR, CPU.NOT, CPU.XOR, CPU.DEC, CPU.DIV,
      CPU.INC, CPU.MOD, CPU.MUL, CPU.SUB, CPU.CMP;
    try apply alu_PC; reflexivity.
Qed.

Lemma call_IR h a b : CPU.IR (fst (CPU.call h this a b)) = CPU.IR this.
Proof.
  destruct h; cbn [CPU.call fst];
    unfold CPU.ADD, CPU.AND, CPU.OR, CPU.NOT, CPU.XOR, CPU.DEC, CPU.DIV,
      CPU.INC, CPU.MOD, CPU.MUL, CPU.SUB, CPU.CMP;
    try apply alu_IR; reflexivity.
Qed.

End Frames.

(** Once the clock is stopped, no further cycle runs. *)
Lemma run_stopped (n : nat) (this : CPU.t) :
  CPU.clock this = false -> CPU.run n this = this.
Proof. intros H. destruct n; simpl; [reflexivity | now rewrite H]. Qed.

(** ** The fetch/decode/execute cycle *)

(** C7.  When the fetched opcode has no entry in the branch table, the cycle
    reports ['Unknown opcode'] followed by the opcode and stops the clock.
    Nothing else happens: no handler runs (registers, memory, flags and the
    standard output are untouched), the program counter is not advanced, and
    no further cycle runs. *)
Theorem tick_unknown_opcode (this : CPU.t) :
  CPU.branchTable this (opcode_at this) = None ->
  CPU.tick this
  = CPU.stopClock
      (CPU.console_error (CPU.set_IR this (opcode_at this))
         (Cat "Unknown opcode" (opcode_at this))) /\
  CPU.stderr (CPU.tick this)
  = CPU.stderr this ++ [Cat "Unknown opcode" (opcode_at this)] /\
  CPU.PC (CPU.tick this) = CPU.PC this /\
  CPU.reg (CPU.tick this) = CPU.reg this /\
  CPU.ram (CPU.tick this) = CPU.ram this /\
  CPU.FL (CPU.tick this) = CPU.FL this /\
  CPU.stdout (CPU.tick this) = CPU.stdout this /\
  CPU.clock (CPU.tick this) = false /\
  (forall n : nat, CPU.run n (CPU.tick this) = CPU.tick this).
Proof.
  unfold opcode_at. intros H.
  assert (E : CPU.tick this
              = CPU.stopClock
                  (CPU.console_error
                     (CPU.set_IR this (RAM.read (CPU.ram this) (CPU.PC this)))
                     (Cat "Unknown opcode"
                        (RAM.read (CPU.ram this) (CPU.PC this))))).
  { unfold CPU.tick. cbn [CPU.set_IR CPU.branchTable CPU.IR CPU.ram CPU.PC].
    rewrite H. reflexivity. }
  rewrite E. repeat split.
  intros n. now apply run_stopped.
Qed.

Lemma tick_unknown_opcode_witness :
  CPU.branchTable bad_cpu (opcode_at bad_cpu) = None /\
  CPU.stderr (CPU.tick bad_cpu) = [Cat "Unknown opcode" (num 0xFF)] /\
  CPU.PC (CPU.tick bad_cpu) = CPU.PC bad_cpu /\
  CPU.clock (CPU.tick bad_cpu) = false /\
  CPU.run 5 (CPU.tick bad_cpu) = CPU.tick bad_cpu.
Proof.
  assert (H : CPU.branchTable bad_cpu (opcode_at bad_cpu) = None)
    by (vm_compute; reflexivity).
  destruct (tick_unknown_opcode bad_cpu H)
    as (_ & Herr & Hpc & _ & _ & _ & _ & Hclk & Hrun).
  split; [exact H|]. split; [exact Herr|]. split; [exact Hpc|].
  split; [exact Hclk | exact (Hrun 5%nat)].
Defined.

(** ** The ALU *)

Lemma alu_zero_divisor (this : CPU.t) (op : string) (regA regB : value) :
  op = "DIV"%string \/ op = "MOD"%string ->
  CPU.reg this regB = num 0 ->
  CPU.alu this op regA regB
  = CPU.stopClock (CPU.console_error this (Str "2nd param could not be 0")).
Proof.
  intros Hop Hzero. apply strict_eq_num_zero in Hzero.
  destruct Hop as [-> | ->]; unfold CPU.alu; cbn [String.eqb Ascii.eqb Bool.eqb];
    rewrite Hzero; reflexivity.
Qed.

(** C3.  With a zero in register [regB], the ALU operations DIV and MOD leave
    register [regA] (indeed every register) as it was, report
    ['2nd param could not be 0'] on the error stream and stop the clock, so
    that no further cycle runs. *)
Theorem alu_DIV_MOD_zero_divisor
  (this : CPU.t) (op : string) (regA regB : value) :
  op = "DIV"%string \/ op = "MOD"%string ->
  CPU.reg this regB = num 0 ->
  CPU.reg (CPU.alu this op regA regB) regA = CPU.reg this regA /\
  CPU.reg (CPU.alu this op regA regB) = CPU.reg this /\
  CPU.stderr (CPU.alu this op regA regB)
  = CPU.stderr this ++ [Str "2nd param could not be 0"] /\
  CPU.clock (CPU.alu this op regA regB) = false /\
  (forall n : nat,
     CPU.run n (CPU.alu this op regA regB) = CPU.alu this op regA regB).
Proof.
  intros Hop Hzero.
  rewrite (alu_zero_divisor this op regA regB Hop Hzero). repeat split.
  intros n. now apply run_stopped.
Qed.

Lemma alu_DIV_MOD_zero_divisor_witness :
  ("DIV"%string = "DIV"%string \/ "DIV"%string = "MOD"%string) /\
  CPU.reg div_cpu (num 1) = num 0 /\
  CPU.reg (CPU.alu div_cpu "DIV" (num 0) (num 1)) (num 0) = num 5 /\
  CPU.clock (CPU.alu div_cpu "DIV" (num 0) (num 1)) = false.
Proof.
  assert (Hop : "DIV"%string = "DIV"%string \/ "DIV"%string = "MOD"%string)
    by (left; reflexivity).
  assert (Hz : CPU.reg div_cpu (num 1) = num 0) by (vm_compute; reflexivity).
  destruct (alu_DIV_MOD_zero_divisor div_cpu "DIV" (num 0) (num 1) Hop Hz)
    as (Hreg & _ & _ & Hclk & _).
  split; [exact Hop|]. split; [exact Hz|]. split; [|exact Hclk].
  rewrite Hreg. vm_compute. reflexivity.
Defined.

(** The same through a whole cycle: a DIV or MOD instruction whose second
    operand names a register holding zero changes no register and is the last
    cycle of the run. *)
Lemma tick_DIV_MOD_zero_divisor (this : CPU.t) (h : handler) :
  CPU.branchTable this (opcode_at this) = Some h ->
  h = this_DIV \/ h = this_MOD ->
  CPU.reg this (operandB_at this) = num 0 ->
  CPU.reg (CPU.tick this) = CPU.reg this /\
  CPU.stderr (CPU.tick this)
  = CPU.stderr this ++ [Str "2nd param could not be 0"] /\
  (forall n : nat, CPU.run n (CPU.tick this) = CPU.tick this).
Proof.
  unfold opcode_at, operandB_at. intros Hbt Hh Hzero.
  unfold CPU.tick. cbn [CPU.set_IR CPU.branchTable CPU.IR CPU.ram CPU.PC].
  rewrite Hbt.
  destruct Hh as [-> | ->]; cbn [CPU.call]; unfold CPU.DIV, CPU.MOD;
    (rewrite alu_zero_divisor; [| auto | exact Hzero]);
    repeat split; intros n; now apply run_stopped.
Qed.

(** Only CALL and RET hand a next-PC value back to the cycle. *)
Lemma call_returns_undefined (h : handler) (this : CPU.t) (a b : value) :
  h <> this_CALL -> h <> this_RET -> snd (CPU.call h this a b) = VUndef.
Proof. intros Hc Hr. destruct h; try reflexivity; contradiction. Qed.

(** The default advance of the program counter. *)
Lemma tick_PC_default (this : CPU.t) (h : handler) :
  CPU.branchTable this (opcode_at this) = Some h ->
  snd (CPU.call h (CPU.set_IR this (opcode_at this))
         (operandA_at this) (operandB_at this)) = VUndef ->
  CPU.PC (CPU.tick this)
  = js_add (CPU.PC this) (js_add (CPU.operandCount (opcode_at this)) (num 1)).
Proof.
  unfold opcode_at, operandA_at, operandB_at. intros Hbt Hret.
  unfold CPU.tick. cbn [CPU.set_IR CPU.branchTable CPU.IR CPU.ram CPU.PC].
  rewrite Hbt.
  pose proof (call_PC (CPU.set_IR this (RAM.read (CPU.ram this) (CPU.PC this)))
                h (RAM.read (CPU.ram this) (js_add (CPU.PC this) (num 1)))
                (RAM.read (CPU.ram this) (js_add (CPU.PC this) (num 2))))
    as Hpc.
  pose proof (call_IR (CPU.set_IR this (RAM.read (CPU.ram this) (CPU.PC this)))
                h (RAM.read (CPU.ram this) (js_add (CPU.PC this) (num 1)))
                (RAM.read (CPU.ram this) (js_add (CPU.PC this) (num 2))))
    as Hir.
  cbn [CPU.set_IR CPU.PC CPU.IR] in Hpc, Hir, Hret.
  destruct (CPU.call h _ _ _) as [this' nextPC].
  cbn [fst snd] in Hpc, Hir, Hret. subst nextPC.
  cbn [CPU.set_PC CPU.PC]. now rewrite Hpc, Hir.
Qed.

(** Every instruction other than CALL and RET advances the program counter
    by the default amount. *)
Lemma tick_PC_non_transfer (this : CPU.t) (h : handler) :
  CPU.branchTable this (opcode_at this) = Some h ->
  h <> this_CALL -> h <> this_RET ->
  CPU.PC (CPU.tick this)
  = js_add (CPU.PC this) (js_add (CPU.operandCount (opcode_at this)) (num 1)).
Proof.
  intros Hbt Hc Hr. apply (tick_PC_default this h Hbt).
  now apply call_returns_undefined.
Qed.

(** C4.  When the fetched opcode has a handler and the handler returns no
    next-PC value, one cycle leaves the program counter at its value before
    the fetch plus [operandCount + 1], where [operandCount] is
    [(opcode >> 6) & 0b11]. *)
Theorem tick_advances_PC (this : CPU.t) (h : handler) :
  CPU.branchTable this (opcode_at this) = Some h ->
  snd (CPU.call h (CPU.set_IR this (opcode_at this))
         (operandA_at this) (operandB_at this)) = VUndef ->
  CPU.PC (CPU.tick this)
  = js_add (CPU.PC this) (js_add (CPU.operandCount (opcode_at this)) (num 1)) /\
  CPU.PC (CPU.tick this)
  = js_add (CPU.PC this)
      (num (Z.land (Z.shiftr (ToInt32 (opcode_at this)) 6) 3 + 1)).
Proof.
  intros Hbt Hret.
  pose proof (tick_PC_default this h Hbt Hret) as E.
  split; [exact E|].
  rewrite E, operandCount_spec, js_add_num. reflexivity.
Qed.

Lemma tick_advances_PC_witness :
  CPU.branchTable (pokes cpu0 0 mult_program)
    (opcode_at (pokes cpu0 0 mult_program)) = Some this_LDI /\
  snd (CPU.call this_LDI
         (CPU.set_IR (pokes cpu0 0 mult_program)
            (opcode_at (pokes cpu0 0 mult_program)))
         (operandA_at (pokes cpu0 0 mult_program))
         (operandB_at (pokes cpu0 0 mult_program))) = VUndef /\
  CPU.PC (CPU.tick (pokes cpu0 0 mult_program))
  = js_add (CPU.PC (pokes cpu0 0 mult_program)) (num (2 + 1)).
Proof.
  assert (Hbt : CPU.branchTable (pokes cpu0 0 mult_program)
                  (opcode_at (pokes cpu0 0 mult_program)) = Some this_LDI)
    by (vm_compute; reflexivity).
  split; [exact Hbt|]. split; [reflexivity|].
  exact (proj2 (tick_advances_PC (pokes cpu0 0 mult_program) this_LDI Hbt
                  eq_refl)).
Defined.

(** ** The flags register *)

Lemma CMP_setFlag (this : CPU.t) (regA regB : value) :
  CPU.CMP this regA regB
  = CPU.setFlag this FL_EQ (strict_eq (CPU.reg this regA) (CPU.reg this regB)).
Proof. reflexivity. Qed.

Lemma ToInt32_FL_EQ : ToInt32 FL_EQ = 1.
Proof. apply ToInt32_num_small. unfold int32. lia. Qed.

Lemma ToInt32_not_FL_EQ : ToInt32 (js_not FL_EQ) = Z.lnot 1.
Proof.
  unfold js_not. rewrite ToInt32_FL_EQ.
  apply ToInt32_num_small. unfold int32. change (Z.lnot 1) with (-2). lia.
Qed.

(** The flags after [setFlag(FL_EQ, v)], as a 32-bit integer. *)
Lemma setFlag_FL_EQ (this : CPU.t) (v : bool) :
  ToInt32 (CPU.FL (CPU.setFlag this FL_EQ v))
  = if v then Z.lor (ToInt32 (CPU.FL this)) 1
    else Z.land (ToInt32 (CPU.FL this)) (Z.lnot 1).
Proof.
  pose proof (ToInt32_range (CPU.FL this)) as Hr.
  unfold CPU.setFlag. destruct v; cbn [CPU.set_FL CPU.FL].
  - unfold js_or. rewrite ToInt32_FL_EQ.
    apply ToInt32_num_small, int32_lor; [exact Hr | unfold int32; lia].
  - unfold js_and. rewrite ToInt32_not_FL_EQ.
    apply ToInt32_num_small, int32_land; [exact Hr |].
    unfold int32. change (Z.lnot 1) with (-2). lia.
Qed.

(** C5.  After CMP the Equal bit (bit 0) of the flags register is 1 exactly
    when the two registers hold equal values under [===], the comparison of
    the source, and 0 otherwise.  Two numbers are equal under [===] exactly
    when they are the same number. *)
Theorem CMP_sets_Equal_flag (this : CPU.t) (regA regB : value) :
  flag_bit (CPU.FL (CPU.CMP this regA regB)) 0
  = strict_eq (CPU.reg this regA) (CPU.reg this regB) /\
  (forall p q : Qc,
     CPU.reg this regA = VNum p -> CPU.reg this regB = VNum q ->
     (flag_bit (CPU.FL (CPU.CMP this regA regB)) 0 = true <-> p = q)).
Proof.
  assert (E : flag_bit (CPU.FL (CPU.CMP this regA regB)) 0
              = strict_eq (CPU.reg this regA) (CPU.reg this regB)).
  { unfold flag_bit. rewrite CMP_setFlag, setFlag_FL_EQ.
    destruct (strict_eq _ _).
    - rewrite Z.lor_spec. apply orb_true_r.
    - rewrite Z.land_spec. apply andb_false_r. }
  split; [exact E|].
  intros p q Hp Hq. rewrite E, Hp, Hq, strict_eq_true_iff.
  split.
  - intros [H _]. congruence.
  - intros ->. split; [reflexivity | discriminate].
Qed.

Lemma CMP_sets_Equal_flag_witness :
  CPU.reg call_cpu (num 1) = VNum (Q2Qc (inject_Z 6)) /\
  CPU.reg call_cpu (num 0) = VNum (Q2Qc (inject_Z 0)) /\
  flag_bit (CPU.FL (CPU.CMP call_cpu (num 1) (num 1))) 0 = true /\
  flag_bit (CPU.FL (CPU.CMP call_cpu (num 1) (num 0))) 0 = false /\
  (flag_bit (CPU.FL (CPU.CMP call_cpu (num 1) (num 0))) 0 = true
   <-> Q2Qc (inject_Z 6) = Q2Qc (inject_Z 0)).
Proof.
  assert (H1 : CPU.reg call_cpu (num 1) = VNum (Q2Qc (inject_Z 6)))
    by (vm_compute; reflexivity).
  assert (H0 : CPU.reg call_cpu (num 0) = VNum (Q2Qc (inject_Z 0)))
    by (vm_compute; reflexivity).
  split; [exact H1|]. split; [exact H0|]. split; [|split].
  - rewrite (proj1 (CMP_sets_Equal_flag call_cpu (num 1) (num 1))).
    vm_compute. reflexivity.
  - rewrite (proj1 (CMP_sets_Equal_flag call_cpu (num 1) (num 0))).
    vm_compute. reflexivity.
  - exact (proj2 (CMP_sets_Equal_flag call_cpu (num 1) (num 0)) _ _ H1 H0).
Defined.

(** C9.  CMP changes at most the Equal bit of the flags register: every
    other bit of the 32-bit flags value, the Greater-Than bit (bit 1) and the
    Less-Than bit (bit 2) among them, is after CMP what it was before. *)
Theorem CMP_preserves_other_flags (this : CPU.t) (regA regB : value) (i : Z) :
  i <> 0 ->
  flag_bit (CPU.FL (CPU.CMP this regA regB)) i = flag_bit (CPU.FL this) i.
Proof.
  intros Hi. unfold flag_bit. rewrite CMP_setFlag, setFlag_FL_EQ.
  destruct (strict_eq _ _).
  - now apply testbit_lor_1.
  - now apply testbit_land_not_1.
Qed.

Lemma CMP_preserves_other_flags_witness :
  1 <> 0 /\
  flag_bit (CPU.FL (CPU.CMP flags_cpu (num 0) (num 1))) 1
  = flag_bit (CPU.FL flags_cpu) 1.
Proof.
  assert (H : 1 <> 0) by lia.
  split; [exact H|].
  exact (CMP_preserves_other_flags flags_cpu (num 0) (num 1) 1 H).
Defined.

(** ** The stack *)

Lemma pushHelper_SP (this : CPU.t) (v : value) :
  CPU.reg (CPU.pushHelper this v) SP = js_sub (CPU.reg this SP) (num 1).
Proof. unfold CPU.pushHelper. cpu_simpl. apply obj_set_same. Qed.

Lemma pushHelper_reg (this : CPU.t) (v r : value) :
  r <> SP -> CPU.reg (CPU.pushHelper this v) r = CPU.reg this r.
Proof. intros H. unfold CPU.pushHelper. cpu_simpl. now apply obj_set_other. Qed.

(** The pushed value sits at the new stack pointer. *)
Lemma pushHelper_top (this : CPU.t) (v : value) :
  RAM.read (CPU.ram (CPU.pushHelper this v)) (CPU.reg (CPU.pushHelper this v) SP)
  = v.
Proof.
  unfold CPU.pushHelper. cpu_simpl. apply obj_set_same.
Qed.

(** [popHelper] returns the cell at the stack pointer, and moves the stack
    pointer one cell down. *)
Lemma popHelper_value (this : CPU.t) :
  snd (CPU.popHelper this) = RAM.read (CPU.ram this) (CPU.reg this SP).
Proof. reflexivity. Qed.

Lemma popHelper_SP (this : CPU.t) :
  CPU.reg (fst (CPU.popHelper this)) SP = js_sub (CPU.reg this SP) (num 1).
Proof. unfold CPU.popHelper. cpu_simpl. apply obj_set_same. Qed.

Lemma POP_reg (this : CPU.t) (r : value) :
  CPU.reg (CPU.POP this r) r = RAM.read (CPU.ram this) (CPU.reg this SP).
Proof. unfold CPU.POP, CPU.popHelper. cpu_simpl. apply obj_set_same. Qed.

Lemma POP_SP (this : CPU.t) (r : value) :
  r <> SP ->
  CPU.reg (CPU.POP this r) SP = js_sub (CPU.reg this SP) (num 1).
Proof.
  intros H. unfold CPU.POP, CPU.popHelper. cpu_simpl.
  rewrite obj_set_other by congruence. apply obj_set_same.
Qed.

(** PUSH then POP on a register other than the stack pointer: the register
    is restored, the stack pointer has gone down by two. *)
Lemma PUSH_POP_effect (this : CPU.t) (r : value) :
  r <> SP ->
  CPU.reg (CPU.POP (CPU.PUSH this r) r) r = CPU.reg this r /\
  CPU.reg (CPU.POP (CPU.PUSH this r) r) SP
  = js_sub (js_sub (CPU.reg this SP) (num 1)) (num 1).
Proof.
  intros H. split.
  - rewrite POP_reg. unfold CPU.PUSH. apply pushHelper_top.
  - rewrite POP_SP by assumption. unfold CPU.PUSH. now rewrite pushHelper_SP.
Qed.

(** A cycle that dispatches to RET continues at the address on top of the
    stack. *)
Lemma tick_RET (this : CPU.t) :
  CPU.branchTable this (opcode_at this) = Some this_RET ->
  RAM.read (CPU.ram this) (CPU.reg this SP) <> VUndef ->
  CPU.PC (CPU.tick this) = RAM.read (CPU.ram this) (CPU.reg this SP).
Proof.
  unfold opcode_at. intros Hbt Hdef.
  unfold CPU.tick. cbn [CPU.set_IR CPU.branchTable CPU.IR CPU.ram CPU.PC].
  rewrite Hbt. cbn [CPU.call]. unfold CPU.RET, CPU.popHelper. cpu_simpl.
  destruct (RAM.read (CPU.ram this) (CPU.reg this SP));
    [contradiction | reflexivity | reflexivity].
Qed.

(** The state a cycle that dispatches to CALL leaves behind. *)
Lemma tick_CALL (this : CPU.t) :
  CPU.branchTable this (opcode_at this) = Some this_CALL ->
  CPU.reg (CPU.tick this) SP = js_sub (CPU.reg this SP) (num 1) /\
  (forall r : value, r <> SP -> CPU.reg (CPU.tick this) r = CPU.reg this r) /\
  RAM.read (CPU.ram (CPU.tick this)) (CPU.reg (CPU.tick this) SP)
  = js_add (CPU.PC this) (num 2) /\
  (CPU.reg (CPU.tick this) (operandA_at this) <> VUndef ->
   CPU.PC (CPU.tick this) = CPU.reg (CPU.tick this) (operandA_at this)).
Proof.
  unfold opcode_at, operandA_at. intros Hbt.
  unfold CPU.tick. cbn [CPU.set_IR CPU.branchTable CPU.IR CPU.ram CPU.PC].
  rewrite Hbt. cbn [CPU.call]. unfold CPU.CALL.
  set (s := CPU.pushHelper _ _).
  assert (Hsp : CPU.reg s SP = js_sub (CPU.reg this SP) (num 1))
    by (unfold s, CPU.pushHelper; cpu_simpl; apply obj_set_same).
  assert (Hreg : forall r, r <> SP -> CPU.reg s r = CPU.reg this r)
    by (intros r Hr; unfold s, CPU.pushHelper; cpu_simpl; now apply obj_set_other).
  assert (Htop : RAM.read (CPU.ram s) (CPU.reg s SP) = js_add (CPU.PC this) (num 2))
    by (unfold s, CPU.pushHelper; cpu_simpl; apply obj_set_same).
  clearbody s.
  destruct (CPU.reg s (RAM.read (CPU.ram this) (js_add (CPU.PC this) (num 1))))
    eqn:E; cpu_simpl; repeat split; auto; congruence.
Qed.

(** C6.  A cycle that dispatches to CALL, its operand naming a register that
    holds a value, pushes [PC + 2] (the stack pointer goes down by one and the
    cell it then points at holds [PC + 2]) and continues at the value held in
    that register: the value it holds once the push is done, which for every
    register but the stack pointer is the value it held before the cycle.
    A later cycle that dispatches to RET, started with the stack pointer and
    the cell it points at as CALL left them, continues at [PC + 2], the
    address after the two-byte CALL instruction. *)
Theorem CALL_then_RET (this : CPU.t) :
  CPU.branchTable this (opcode_at this) = Some this_CALL ->
  CPU.reg this (operandA_at this) <> VUndef ->
  CPU.reg (CPU.tick this) SP = js_sub (CPU.reg this SP) (num 1) /\
  RAM.read (CPU.ram (CPU.tick this)) (CPU.reg (CPU.tick this) SP)
  = js_add (CPU.PC this) (num 2) /\
  CPU.PC (CPU.tick this) = CPU.reg (CPU.tick this) (operandA_at this) /\
  (operandA_at this <> SP ->
   CPU.PC (CPU.tick this) = CPU.reg this (operandA_at this)) /\
  (forall this' : CPU.t,
     CPU.reg this' SP = CPU.reg (CPU.tick this) SP ->
     RAM.read (CPU.ram this') (CPU.reg (CPU.tick this) SP)
     = RAM.read (CPU.ram (CPU.tick this)) (CPU.reg (CPU.tick this) SP) ->
     CPU.branchTable this' (opcode_at this') = Some this_RET ->
     CPU.PC (CPU.tick this') = js_add (CPU.PC this) (num 2)).
Proof.
  intros Hbt Hdef.
  destruct (tick_CALL this Hbt) as (Hsp & Hreg & Htop & Hpc).
  assert (Hdef' : CPU.reg (CPU.tick this) (operandA_at this) <> VUndef).
  { destruct (value_eq_dec (operandA_at this) SP) as [e | n].
    - rewrite e, Hsp. apply js_sub_defined.
    - now rewrite Hreg. }
  specialize (Hpc Hdef').
  repeat split; try assumption.
  - intros Hne. now rewrite Hpc, Hreg.
  - intros this' Hsp' Hcell Hret.
    rewrite tick_RET; rewrite ?Hsp', ?Hcell, ?Htop;
      auto using js_add_defined.
Qed.

Lemma CALL_then_RET_witness :
  CPU.branchTable call_cpu (opcode_at call_cpu) = Some this_CALL /\
  CPU.reg call_cpu (operandA_at call_cpu) <> VUndef /\
  CPU.branchTable (CPU.tick call_cpu) (opcode_at (CPU.tick call_cpu))
  = Some this_RET /\
  CPU.PC (CPU.tick call_cpu) = CPU.reg (CPU.tick call_cpu) (operandA_at call_cpu) /\
  CPU.PC (CPU.tick (CPU.tick call_cpu)) = js_add (CPU.PC call_cpu) (num 2).
Proof.
  assert (Hbt : CPU.branchTable call_cpu (opcode_at call_cpu) = Some this_CALL)
    by (vm_compute; reflexivity).
  assert (Hdef : CPU.reg call_cpu (operandA_at call_cpu) <> VUndef)
    by (vm_compute; discriminate).
  assert (Hret : CPU.branchTable (CPU.tick call_cpu)
                   (opcode_at (CPU.tick call_cpu)) = Some this_RET)
    by (vm_compute; reflexivity).
  destruct (CALL_then_RET call_cpu Hbt Hdef) as (_ & _ & Hpc & _ & Hback).
  split; [exact Hbt|]. split; [exact Hdef|]. split; [exact Hret|].
  split; [exact Hpc|].
  exact (Hback (CPU.tick call_cpu) eq_refl eq_refl Hret).
Defined.

(** C1 fails on the code: [popHelper] subtracts one from the stack pointer
    where a pop has to add one.  On a fresh processor with 5 in register 0,
    PUSH(0) followed by POP(0) restores the register, and leaves the stack
    pointer at [0xF2], two below the [0xF4] it started from. *)
Theorem PUSH_POP_moves_SP :
  CPU.reg (CPU.LDI cpu0 (num 0) (num 5)) (num 0) = num 5 /\
  CPU.reg (CPU.LDI cpu0 (num 0) (num 5)) SP = num 0xF4 /\
  CPU.reg (CPU.POP (CPU.PUSH (CPU.LDI cpu0 (num 0) (num 5)) (num 0)) (num 0))
    (num 0) = num 5 /\
  CPU.reg (CPU.POP (CPU.PUSH (CPU.LDI cpu0 (num 0) (num 5)) (num 0)) (num 0))
    SP = num 0xF2 /\
  CPU.reg (CPU.POP (CPU.PUSH (CPU.LDI cpu0 (num 0) (num 5)) (num 0)) (num 0)) SP
  <> CPU.reg (CPU.LDI cpu0 (num 0) (num 5)) SP.
Proof.
  assert (Hne : num 0 <> SP) by (intros E; apply num_inj in E; lia).
  assert (H0 : CPU.reg (CPU.LDI cpu0 (num 0) (num 5)) (num 0) = num 5)
    by apply obj_set_same.
  assert (Hsp : CPU.reg (CPU.LDI cpu0 (num 0) (num 5)) SP = num 0xF4).
  { unfold CPU.LDI, cpu0, CPU.new, CPU.setupBranchTable. cpu_simpl.
    rewrite obj_set_other by congruence. apply obj_set_same. }
  destruct (PUSH_POP_effect (CPU.LDI cpu0 (num 0) (num 5)) (num 0) Hne)
    as [Hr Hs].
  rewrite Hr, Hs, H0, Hsp, !js_sub_num.
  repeat split.
  intros E. apply num_inj in E. lia.
Qed.

(** C2 fails on the code for the same reason: POP stores the cell at the
    stack pointer into the target register, and then moves the stack pointer
    down, not up.  On a fresh processor, whose stack pointer is [0xF4],
    POP(0) leaves it at [0xF3], not at [0xF5]. *)
Theorem POP_decrements_SP :
  CPU.reg cpu0 SP = num 0xF4 /\
  CPU.reg (CPU.POP cpu0 (num 0)) (num 0)
  = RAM.read (CPU.ram cpu0) (CPU.reg cpu0 SP) /\
  CPU.reg (CPU.POP cpu0 (num 0)) SP = num 0xF3 /\
  CPU.reg (CPU.POP cpu0 (num 0)) SP <> js_add (CPU.reg cpu0 SP) (num 1).
Proof.
  assert (Hne : num 0 <> SP) by (intros E; apply num_inj in E; lia).
  assert (Hsp : CPU.reg cpu0 SP = num 0xF4).
  { unfold cpu0, CPU.new, CPU.setupBranchTable. cpu_simpl.
    apply obj_set_same. }
  rewrite POP_reg, POP_SP, Hsp, js_sub_num, js_add_num by exact Hne.
  repeat split.
  intros E. apply num_inj in E. lia.
Qed.

(** ** Whole programs *)

(** [LDI R0,8; LDI R1,9; MUL R0,R1; PRN R0; HLT] prints 72 and halts. *)
Example mult_program_prints_72 :
  CPU.stdout (CPU.run 10 (CPU.startClock (pokes cpu0 0 mult_program)))
  = [num 72] /\
  CPU.clock (CPU.run 10 (CPU.startClock (pokes cpu0 0 mult_program))) = false.
Proof. vm_compute. split; reflexivity. Qed.

(** [LDI R0,5; PUSH R0; LDI R0,0; POP R0; PRN R0; HLT] prints 5. *)
Example stack_program_prints_5 :
  CPU.stdout (CPU.run 10 (CPU.startClock (pokes cpu0 0 stack_program)))
  = [num 5].
Proof. vm_compute. reflexivity. Qed.

(** An opcode byte without a handler ends the run at once. *)
Example bad_program_halts :
  CPU.stderr (CPU.run 10 (CPU.startClock bad_cpu))
  = [Cat "Unknown opcode" (num 0xFF)] /\
  CPU.PC (CPU.run 10 (CPU.startClock bad_cpu)) = num 0.
Proof. vm_compute. split; reflexivity. Qed.

(** * Further properties of the emulator *)

(** ** More on numbers *)

Lemma is_index_num (n z : Z) : is_index n (num z) = (0 <=? z) && (z <? n).
Proof.
  unfold is_index, num. rewrite this_Q2Qc_inject. reflexivity.
Qed.

Lemma num_neq (a b : Z) : a <> b -> num a <> num b.
Proof. intros H E. apply H. now apply num_inj. Qed.

Lemma Q2Qc_inject_mult (a b : Z) :
  (Q2Qc (inject_Z a) * Q2Qc (inject_Z b))%Qc = Q2Qc (inject_Z (a * b)).
Proof.
  apply Qc_is_canon. unfold Qcmult, Q2Qc. cbn [this].
  rewrite !Qred_correct, inject_Z_mult. reflexivity.
Qed.

Lemma js_mul_num (a b : Z) : js_mul (num a) (num b) = num (a * b).
Proof. unfold js_mul, num. now rewrite Q2Qc_inject_mult. Qed.

Lemma Q2Qc_inject_inj (a b : Z) :
  Q2Qc (inject_Z a) = Q2Qc (inject_Z b) -> a = b.
Proof. intros H. apply num_inj. unfold num. now rewrite H. Qed.

Lemma Q2Qc_inject_nonzero (b : Z) : b <> 0 -> Q2Qc (inject_Z b) <> 0%Qc.
Proof. intros H E. apply H. now apply Q2Qc_inject_inj. Qed.

Lemma Qc_eq_bool_false (p q : Qc) : p <> q -> Qc_eq_bool p q = false.
Proof.
  intros H. unfold Qc_eq_bool. destruct (Qc_eq_dec p q); [contradiction | reflexivity].
Qed.

Lemma strict_eq_nonzero (q : Qc) : q <> 0%Qc -> strict_eq (VNum q) (num 0) = false.
Proof. intros H. simpl. now apply Qc_eq_bool_false. Qed.

(** Division of integers as rationals: [a / b] with [b <> 0] is the fraction
    [a # b] up to sign. *)
Lemma Qc_div_mult (p q r : Qc) : q <> 0%Qc -> (p / q = r <-> p = r * q)%Qc.
Proof.
  intros Hq. split; intros H.
  - rewrite <- H. field. exact Hq.
  - rewrite H. field. exact Hq.
Qed.

Lemma js_div_num_exact (b c : Z) :
  b <> 0 -> js_div (num (c * b)) (num b) = num c.
Proof.
  intros Hb. unfold js_div, num.
  rewrite Qc_eq_bool_false by now apply Q2Qc_inject_nonzero.
  f_equal. apply Qc_div_mult; [now apply Q2Qc_inject_nonzero|].
  symmetry. apply Q2Qc_inject_mult.
Qed.

Lemma js_div_num_integer (a b z : Z) :
  b <> 0 -> js_div (num a) (num b) = num z -> a = z * b.
Proof.
  intros Hb. unfold js_div, num.
  rewrite Qc_eq_bool_false by now apply Q2Qc_inject_nonzero.
  intros H.
  assert (E : (Q2Qc (inject_Z a) / Q2Qc (inject_Z b))%Qc = Q2Qc (inject_Z z)).
  { apply (f_equal (fun v => match v with VNum q => q | _ => 0%Qc end)) in H.
    exact H. }
  apply Qc_div_mult in E; [| now apply Q2Qc_inject_nonzero].
  rewrite Q2Qc_inject_mult in E. now apply Q2Qc_inject_inj.
Qed.

(** Truncation does not depend on the fraction that represents the number. *)
Lemma quot_Qeq (q1 q2 : Q) :
  (q1 == q2)%Q ->
  Z.quot (Qnum q1) (Zpos (Qden q1)) = Z.quot (Qnum q2) (Zpos (Qden q2)).
Proof.
  unfold Qeq. destruct q1 as [n1 d1], q2 as [n2 d2]. cbn [Qnum Qden]. intros H.
  rewrite <- (Z.quot_mul_cancel_r n1 (Zpos d1) (Zpos d2)) by discriminate.
  rewrite <- (Z.quot_mul_cancel_r n2 (Zpos d2) (Zpos d1)) by discriminate.
  rewrite H. f_equal. apply Z.mul_comm.
Qed.

Lemma trunc_div_inject (a b : Z) :
  b <> 0 -> trunc (Q2Qc (inject_Z a) / Q2Qc (inject_Z b)) = Z.quot a b.
Proof.
  intros Hb. unfold trunc.
  assert (E : (this (Q2Qc (inject_Z a) / Q2Qc (inject_Z b))%Qc
               == inject_Z a / inject_Z b)%Q).
  { unfold Qcdiv, Qcmult, Qcinv, Q2Qc. cbn [this].
    rewrite !Qred_correct. reflexivity. }
  rewrite (quot_Qeq _ _ E).
  destruct b as [| p | p]; [contradiction | |];
    unfold Qdiv, Qinv, Qmult, inject_Z; cbn [Qnum Qden].
  - rewrite Z.mul_1_r. reflexivity.
  - change (Z.neg p) with (- Z.pos p).
    rewrite Z.quot_opp_r by discriminate.
    change (Z.neg 1) with (- 1). rewrite <- Z.opp_eq_mul_m1.
    rewrite Z.quot_opp_l by discriminate. reflexivity.
Qed.

(** On integers [%] is the remainder of truncated division: it has the sign
    of the dividend. *)
Lemma js_mod_num (a b : Z) : b <> 0 -> js_mod (num a) (num b) = num (Z.rem a b).
Proof.
  intros Hb. unfold js_mod. unfold num at 1 2.
  rewrite Qc_eq_bool_false by now apply Q2Qc_inject_nonzero.
  rewrite trunc_div_inject by assumption.
  rewrite Q2Qc_inject_mult.
  change (VNum (Q2Qc (inject_Z a) - Q2Qc (inject_Z (b * Z.quot a b))))
    with (js_sub (num a) (num (b * Z.quot a b))).
  rewrite js_sub_num. f_equal.
  pose proof (Z.quot_rem' a b). lia.
Qed.

(** ** Construction *)

(** X1.  A new memory of [size] bytes, [size] a valid array length, reads 0
    at the integer addresses [0 .. size - 1] and [undefined] at every other
    address (a negative one, one past the end, [undefined], [NaN]): reads
    are not bounds-checked. *)
Theorem RAM_new_bounds (size : Z) :
  0 <= size < 2^32 ->
  (forall z : Z,
     RAM.read (RAM.new size) (num z)
     = if (0 <=? z) && (z <? size) then num 0 else VUndef) /\
  RAM.read (RAM.new size) VUndef = VUndef /\
  RAM.read (RAM.new size) VNaN = VUndef.
Proof.
  intros _. split; [| split; reflexivity].
  intros z. rewrite RAM_new_read, is_index_num. reflexivity.
Qed.

Lemma RAM_new_bounds_witness :
  0 <= 256 < 2^32 /\
  RAM.read (RAM.new 256) (num 255) = num 0 /\
  RAM.read (RAM.new 256) (num 256) = VUndef /\
  RAM.read (RAM.new 256) (num (-1)) = VUndef.
Proof.
  assert (H : 0 <= 256 < 2^32) by lia.
  destruct (RAM_new_bounds 256 H) as (Hz & _ & _).
  split; [exact H|].
  split; [exact (Hz 255)|]. split; [exact (Hz 256) | exact (Hz (-1))].
Defined.

(** X2.  A new processor keeps the memory it is given, has 0 in registers 0
    to 6 and [0xF4] in register 7, no register outside 0 to 7, zero program
    counter, instruction register and flags, an unarmed clock and has printed
    nothing. *)
Theorem CPU_new_state (ram : RAM.t) :
  CPU.ram (CPU.new ram) = ram /\
  (forall z : Z,
     CPU.reg (CPU.new ram) (num z)
     = if z =? 7 then num 0xF4
       else if (0 <=? z) && (z <? 8) then num 0 else VUndef) /\
  CPU.PC (CPU.new ram) = num 0 /\
  CPU.IR (CPU.new ram) = num 0 /\
  CPU.FL (CPU.new ram) = num 0 /\
  CPU.clock (CPU.new ram) = false /\
  CPU.stdout (CPU.new ram) = [] /\
  CPU.stderr (CPU.new ram) = [].
Proof.
  split; [reflexivity|]. split; [| repeat split].
  intros z. unfold CPU.new, CPU.setupBranchTable.
  cbn [CPU.reg CPU.set_branchTable CPU.set_reg].
  destruct (Z.eqb_spec z 7) as [-> | Hz].
  - apply obj_set_same.
  - rewrite obj_set_other by (apply num_neq; exact Hz).
    unfold array_fill. rewrite is_index_num. reflexivity.
Qed.

(** ** The branch table, entry by entry *)

Ltac split_keys k :=
  repeat match goal with
         | |- context [value_eq_dec k ?c] => destruct (value_eq_dec k c)
         end.

(** The table of a new processor has an entry exactly for the opcode
    constants. *)
Lemma branchTable_new_None (ram : RAM.t) (k : value) :
  CPU.branchTable (CPU.new ram) k = None <-> ~ In k opcodes.
Proof.
  unfold CPU.new, CPU.setupBranchTable.
  cbn [CPU.branchTable CPU.set_branchTable CPU.set_reg]. unfold obj_set.
  split_keys k;
    try (split; [discriminate | intros Hn; exfalso; apply Hn; subst k;
                                unfold opcodes; simpl; tauto]).
  split; [| reflexivity].
  intros _ Hin. unfold opcodes in Hin. simpl in Hin.
  repeat match goal with
         | H : _ \/ _ |- _ => destruct H as [H | H]
         end; try contradiction; symmetry in Hin; contradiction.
Qed.

(** The entry found under a key of the table of a new processor. *)
Lemma branchTable_new_Some (ram : RAM.t) (k : value) (h : handler) :
  CPU.branchTable (CPU.new ram) k = Some h ->
  (k = HLT /\ h = this_HLT) \/ (k = AND /\ h = this_AND) \/
  (k = CALL /\ h = this_CALL) \/ (k = CMP /\ h = this_CMP) \/
  (k = DEC /\ h = this_DEC) \/ (k = DIV /\ h = this_DIV) \/
  (k = INC /\ h = this_INC) \/ (k = MOD /\ h = this_MOD) \/
  (k = MUL /\ h = this_MUL) \/ (k = NOT /\ h = this_NOT) \/
  (k = NOP /\ h = this_NOP) \/ (k = LDI /\ h = this_LDI) \/
  (k = OR /\ h = this_OR) \/ (k = PRN /\ h = this_PRN) \/
  (k = PUSH /\ h = this_PUSH) \/ (k = POP /\ h = this_POP) \/
  (k = RET /\ h = this_RET) \/ (k = SUB /\ h = this_SUB) \/
  (k = XOR /\ h = this_XOR).
Proof.
  unfold CPU.new, CPU.setupBranchTable.
  cbn [CPU.branchTable CPU.set_branchTable CPU.set_reg]. unfold obj_set.
  split_keys k; intros H; try discriminate;
    injection H as <-; tauto.
Qed.

(** X3.  The branch table of a new processor holds entries for the opcode
    constants and for nothing else: looking up any other key, a byte that is
    no opcode or [undefined], finds no handler.  Every entry holds the
    handler named like its opcode; the key shared by ADD and AND holds AND. *)
Theorem branchTable_new_entries (ram : RAM.t) (k : value) :
  (CPU.branchTable (CPU.new ram) k = None <-> ~ In k opcodes) /\
  (forall h : handler,
     CPU.branchTable (CPU.new ram) k = Some h ->
     In (k, h)
       [(HLT, this_HLT); (AND, this_AND); (CALL, this_CALL); (CMP, this_CMP);
        (DEC, this_DEC); (DIV, this_DIV); (INC, this_INC); (MOD, this_MOD);
        (MUL, this_MUL); (NOT, this_NOT); (NOP, this_NOP); (LDI, this_LDI);
        (OR, this_OR); (PRN, this_PRN); (PUSH, this_PUSH); (POP, this_POP);
        (RET, this_RET); (SUB, this_SUB); (XOR, this_XOR)]).
Proof.
  split; [apply branchTable_new_None|].
  intros h H. apply branchTable_new_Some in H. simpl.
  repeat match goal with
         | H : _ \/ _ |- _ => destruct H as [H | H]
         end; destruct H as [-> ->]; tauto.
Qed.

Lemma branchTable_new_entries_witness :
  CPU.branchTable cpu0 LDI = Some this_LDI /\
  In (LDI, this_LDI)
    [(HLT, this_HLT); (AND, this_AND); (CALL, this_CALL); (CMP, this_CMP);
     (DEC, this_DEC); (DIV, this_DIV); (INC, this_INC); (MOD, this_MOD);
     (MUL, this_MUL); (NOT, this_NOT); (NOP, this_NOP); (LDI, this_LDI);
     (OR, this_OR); (PRN, this_PRN); (PUSH, this_PUSH); (POP, this_POP);
     (RET, this_RET); (SUB, this_SUB); (XOR, this_XOR)].
Proof.
  assert (H : CPU.branchTable cpu0 LDI = Some this_LDI)
    by (vm_compute; reflexivity).
  split; [exact H|].
  exact (proj2 (branchTable_new_entries (RAM.new 256) LDI) this_LDI H).
Defined.

(** ** What the ALU touches *)

Ltac alu_cases :=
  unfold CPU.alu, CPU.setFlag;
  repeat match goal with
         | |- context [String.eqb ?op ?s] => destruct (String.eqb_spec op s)
         | |- context [if ?c then _ else _] => destruct c
         end.

Lemma alu_reg_other (this : CPU.t) (op : string) (regA regB r : value) :
  r <> regA -> CPU.reg (CPU.alu this op regA regB) r = CPU.reg this r.
Proof.
  intros H. alu_cases; cpu_simpl; try reflexivity; now apply obj_set_other.
Qed.

Lemma alu_ram (this : CPU.t) (op : string) (regA regB : value) :
  CPU.ram (CPU.alu this op regA regB) = CPU.ram this.
Proof. alu_cases; reflexivity. Qed.

Lemma alu_branchTable (this : CPU.t) (op : string) (regA regB : value) :
  CPU.branchTable (CPU.alu this op regA regB) = CPU.branchTable this.
Proof. alu_cases; reflexivity. Qed.

Lemma alu_stdout (this : CPU.t) (op : string) (regA regB : value) :
  CPU.stdout (CPU.alu this op regA regB) = CPU.stdout this.
Proof. alu_cases; reflexivity. Qed.

Lemma alu_clock (this : CPU.t) (op : string) (regA regB : value) :
  CPU.clock this = false -> CPU.clock (CPU.alu this op regA regB) = false.
Proof. intros H. alu_cases; cpu_simpl; auto. Qed.

Lemma alu_FL (this : CPU.t) (op : string) (regA regB : value) :
  op <> "CMP"%string -> CPU.FL (CPU.alu this op regA regB) = CPU.FL this.
Proof. intros H. alu_cases; try reflexivity; contradiction. Qed.

Lemma alu_CMP_reg (this : CPU.t) (regA regB : value) :
  CPU.reg (CPU.alu this "CMP" regA regB) = CPU.reg this.
Proof.
  change (CPU.alu this "CMP" regA regB)
    with (CPU.setFlag this FL_EQ
            (strict_eq (CPU.reg this regA) (CPU.reg this regB))).
  unfold CPU.setFlag. destruct (strict_eq _ _); reflexivity.
Qed.

(** X4.  An ALU operation writes at most register [regA]: every other
    register, the memory, the program counter, the instruction register, the
    branch table and the standard output are as before.  Only CMP touches the
    flags, and CMP writes no register at all. *)
Theorem alu_frame (this : CPU.t) (op : string) (regA regB : value) :
  (forall r : value,
     r <> regA -> CPU.reg (CPU.alu this op regA regB) r = CPU.reg this r) /\
  CPU.ram (CPU.alu this op regA regB) = CPU.ram this /\
  CPU.PC (CPU.alu this op regA regB) = CPU.PC this /\
  CPU.IR (CPU.alu this op regA regB) = CPU.IR this /\
  CPU.branchTable (CPU.alu this op regA regB) = CPU.branchTable this /\
  CPU.stdout (CPU.alu this op regA regB) = CPU.stdout this /\
  (op <> "CMP"%string -> CPU.FL (CPU.alu this op regA regB) = CPU.FL this) /\
  (op = "CMP"%string -> CPU.reg (CPU.alu this op regA regB) = CPU.reg this).
Proof.
  split; [intros r Hr; now apply alu_reg_other|].
  split; [apply alu_ram|]. split; [apply alu_PC|]. split; [apply alu_IR|].
  split; [apply alu_branchTable|]. split; [apply alu_stdout|].
  split; [apply alu_FL|]. intros ->. apply alu_CMP_reg.
Qed.

Lemma alu_frame_witness :
  num 1 <> num 0 /\ "ADD"%string <> "CMP"%string /\
  CPU.reg (CPU.alu arith_cpu "ADD" (num 0) (num 1)) (num 1)
  = CPU.reg arith_cpu (num 1) /\
  CPU.FL (CPU.alu arith_cpu "ADD" (num 0) (num 1)) = CPU.FL arith_cpu /\
  CPU.reg (CPU.alu arith_cpu "CMP" (num 0) (num 1)) = CPU.reg arith_cpu.
Proof.
  assert (H1 : num 1 <> num 0) by (apply num_neq; lia).
  assert (H2 : "ADD"%string <> "CMP"%string) by discriminate.
  destruct (alu_frame arith_cpu "ADD" (num 0) (num 1))
    as (Hreg & _ & _ & _ & _ & _ & Hfl & _).
  destruct (alu_frame arith_cpu "CMP" (num 0) (num 1))
    as (_ & _ & _ & _ & _ & _ & _ & Hcmp).
  split; [exact H1|]. split; [exact H2|].
  split; [exact (Hreg (num 1) H1)|]. split; [exact (Hfl H2)|].
  exact (Hcmp eq_refl).
Defined.

(** X5.  [alu] has no default case: called with a name that is none of its
    twelve operations it changes nothing. *)
Theorem alu_unknown_op (this : CPU.t) (op : string) (regA regB : value) :
  ~ In op alu_ops -> CPU.alu this op regA regB = this.
Proof.
  intros H. unfold CPU.alu.
  repeat match goal with
         | |- context [String.eqb op ?s] =>
             destruct (String.eqb_spec op s);
             [exfalso; apply H; subst op; unfold alu_ops; simpl; tauto |]
         end.
  reflexivity.
Qed.

Lemma alu_unknown_op_witness :
  ~ In "JMP"%string alu_ops /\
  CPU.alu arith_cpu "JMP" (num 0) (num 1) = arith_cpu.
Proof.
  assert (H : ~ In "JMP"%string alu_ops).
  { unfold alu_ops. simpl. intros Hin.
    repeat match goal with
           | H : _ \/ _ |- _ => destruct H as [H | H]
           end; try discriminate; contradiction. }
  split; [exact H|].
  exact (alu_unknown_op arith_cpu "JMP" (num 0) (num 1) H).
Defined.

(** ** Arithmetic *)

Lemma alu_binary_result (this : CPU.t) (regA regB : value) :
  CPU.reg (CPU.alu this "ADD" regA regB) regA
  = js_add (CPU.reg this regA) (CPU.reg this regB) /\
  CPU.reg (CPU.alu this "SUB" regA regB) regA
  = js_sub (CPU.reg this regA) (CPU.reg this regB) /\
  CPU.reg (CPU.alu this "MUL" regA regB) regA
  = js_mul (CPU.reg this regA) (CPU.reg this regB).
Proof. repeat split; apply obj_set_same. Qed.

(** X6.  ADD, SUB and MUL on registers holding the bytes [a] and [b] leave
    the exact sum, difference and product in [regA]: nothing is reduced
    modulo 256, so the result can exceed 255 or be negative. *)
Theorem alu_ADD_SUB_MUL_bytes (this : CPU.t) (regA regB : value) (a b : Z) :
  byte a -> byte b ->
  CPU.reg this regA = num a -> CPU.reg this regB = num b ->
  CPU.reg (CPU.alu this "ADD" regA regB) regA = num (a + b) /\
  CPU.reg (CPU.alu this "SUB" regA regB) regA = num (a - b) /\
  CPU.reg (CPU.alu this "MUL" regA regB) regA = num (a * b).
Proof.
  intros _ _ Ha Hb.
  destruct (alu_binary_result this regA regB) as (Hadd & Hsub & Hmul).
  rewrite Hadd, Hsub, Hmul, Ha, Hb, js_add_num, js_sub_num, js_mul_num.
  repeat split.
Qed.

Lemma alu_ADD_SUB_MUL_bytes_witness :
  byte 7 /\ byte 2 /\
  CPU.reg arith_cpu (num 0) = num 7 /\ CPU.reg arith_cpu (num 1) = num 2 /\
  CPU.reg (CPU.alu arith_cpu "ADD" (num 0) (num 1)) (num 0) = num (7 + 2) /\
  CPU.reg (CPU.alu arith_cpu "SUB" (num 0) (num 1)) (num 0) = num (7 - 2) /\
  CPU.reg (CPU.alu arith_cpu "MUL" (num 0) (num 1)) (num 0) = num (7 * 2).
Proof.
  assert (B7 : byte 7) by (unfold byte; lia).
  assert (B2 : byte 2) by (unfold byte; lia).
  assert (H0 : CPU.reg arith_cpu (num 0) = num 7) by (vm_compute; reflexivity).
  assert (H1 : CPU.reg arith_cpu (num 1) = num 2) by (vm_compute; reflexivity).
  split; [exact B7|]. split; [exact B2|]. split; [exact H0|]. split; [exact H1|].
  exact (alu_ADD_SUB_MUL_bytes arith_cpu (num 0) (num 1) 7 2 B7 B2 H0 H1).
Defined.

(** X7.  INC and DEC on a register holding the byte [a] leave [a + 1] and
    [a - 1], without wrapping at 255 or at 0, and DEC undoes INC. *)
Theorem INC_DEC_bytes (this : CPU.t) (regA : value) (a : Z) :
  byte a ->
  CPU.reg this regA = num a ->
  CPU.reg (CPU.INC this regA) regA = num (a + 1) /\
  CPU.reg (CPU.DEC this regA) regA = num (a - 1) /\
  CPU.reg (CPU.DEC (CPU.INC this regA) regA) regA = num a.
Proof.
  intros _ Ha.
  assert (Hinc : forall s v, CPU.reg s regA = num v ->
                             CPU.reg (CPU.INC s regA) regA = num (v + 1)).
  { intros s v Hv. unfold CPU.INC.
    change (CPU.alu s "INC" regA VUndef)
      with (CPU.set_reg s regA (js_add (CPU.reg s regA) (num 1))).
    cpu_simpl. now rewrite obj_set_same, Hv, js_add_num. }
  assert (Hdec : forall s v, CPU.reg s regA = num v ->
                             CPU.reg (CPU.DEC s regA) regA = num (v - 1)).
  { intros s v Hv. unfold CPU.DEC.
    change (CPU.alu s "DEC" regA VUndef)
      with (CPU.set_reg s regA (js_sub (CPU.reg s regA) (num 1))).
    cpu_simpl. now rewrite obj_set_same, Hv, js_sub_num. }
  split; [now apply Hinc|]. split; [now apply Hdec|].
  rewrite (Hdec _ (a + 1)) by now apply Hinc.
  f_equal. lia.
Qed.

Lemma INC_DEC_bytes_witness :
  byte 7 /\ CPU.reg arith_cpu (num 0) = num 7 /\
  CPU.reg (CPU.INC arith_cpu (num 0)) (num 0) = num (7 + 1) /\
  CPU.reg (CPU.DEC arith_cpu (num 0)) (num 0) = num (7 - 1) /\
  CPU.reg (CPU.DEC (CPU.INC arith_cpu (num 0)) (num 0)) (num 0) = num 7.
Proof.
  assert (B7 : byte 7) by (unfold byte; lia).
  assert (H0 : CPU.reg arith_cpu (num 0) = num 7) by (vm_compute; reflexivity).
  split; [exact B7|]. split; [exact H0|].
  exact (INC_DEC_bytes arith_cpu (num 0) 7 B7 H0).
Defined.

Lemma alu_nonzero_divisor (this : CPU.t) (regA regB : value) (q : Qc) :
  CPU.reg this regB = VNum q -> q <> 0%Qc ->
  CPU.alu this "DIV" regA regB
  = CPU.set_reg this regA (js_div (CPU.reg this regA) (CPU.reg this regB)) /\
  CPU.alu this "MOD" regA regB
  = CPU.set_reg this regA (js_mod (CPU.reg this regA) (CPU.reg this regB)).
Proof.
  intros Hq Hnz. unfold CPU.alu. cbn [String.eqb Ascii.eqb Bool.eqb].
  rewrite Hq, strict_eq_nonzero by assumption. split; reflexivity.
Qed.

(** X8.  MOD on registers holding the 32-bit integers [a] and [b], [b]
    not zero, leaves in [regA] the remainder of the division truncated
    towards zero, which has the sign of [a]; nothing is reported and the
    clock is left alone. *)
Theorem alu_MOD_integers (this : CPU.t) (regA regB : value) (a b : Z) :
  int32 a -> int32 b -> b <> 0 ->
  CPU.reg this regA = num a -> CPU.reg this regB = num b ->
  CPU.reg (CPU.alu this "MOD" regA regB) regA = num (Z.rem a b) /\
  CPU.stderr (CPU.alu this "MOD" regA regB) = CPU.stderr this /\
  CPU.clock (CPU.alu this "MOD" regA regB) = CPU.clock this.
Proof.
  intros _ _ Hnz Ha Hb.
  destruct (alu_nonzero_divisor this regA regB (Q2Qc (inject_Z b)) Hb
              (Q2Qc_inject_nonzero b Hnz)) as [_ E].
  rewrite E. cpu_simpl. rewrite obj_set_same, Ha, Hb, js_mod_num by assumption.
  repeat split.
Qed.

Lemma alu_MOD_integers_witness :
  int32 7 /\ int32 2 /\ 2 <> 0 /\
  CPU.reg arith_cpu (num 0) = num 7 /\ CPU.reg arith_cpu (num 1) = num 2 /\
  CPU.reg (CPU.alu arith_cpu "MOD" (num 0) (num 1)) (num 0) = num (Z.rem 7 2).
Proof.
  assert (I7 : int32 7) by (unfold int32; lia).
  assert (I2 : int32 2) by (unfold int32; lia).
  assert (N2 : 2 <> 0) by lia.
  assert (H0 : CPU.reg arith_cpu (num 0) = num 7) by (vm_compute; reflexivity).
  assert (H1 : CPU.reg arith_cpu (num 1) = num 2) by (vm_compute; reflexivity).
  split; [exact I7|]. split; [exact I2|]. split; [exact N2|].
  split; [exact H0|]. split; [exact H1|].
  exact (proj1 (alu_MOD_integers arith_cpu (num 0) (num 1) 7 2 I7 I2 N2 H0 H1)).
Defined.

(** X9.  DIV is division of numbers, not of integers.  On registers holding
    the bytes [a] and [b], [b] not zero, it leaves [a / b] in [regA] when [b]
    divides [a], and a number that is no integer when it does not; nothing is
    reported and the clock is left alone. *)
Theorem alu_DIV_bytes (this : CPU.t) (regA regB : value) (a b : Z) :
  byte a -> byte b -> b <> 0 ->
  CPU.reg this regA = num a -> CPU.reg this regB = num b ->
  (a mod b = 0 -> CPU.reg (CPU.alu this "DIV" regA regB) regA = num (a / b)) /\
  (a mod b <> 0 ->
   forall z : Z, CPU.reg (CPU.alu this "DIV" regA regB) regA <> num z) /\
  CPU.stderr (CPU.alu this "DIV" regA regB) = CPU.stderr this /\
  CPU.clock (CPU.alu this "DIV" regA regB) = CPU.clock this.
Proof.
  intros _ _ Hnz Ha Hb.
  destruct (alu_nonzero_divisor this regA regB (Q2Qc (inject_Z b)) Hb
              (Q2Qc_inject_nonzero b Hnz)) as [E _].
  rewrite E. cpu_simpl. rewrite obj_set_same, Ha, Hb.
  split; [| split; [| split; reflexivity]].
  - intros Hdiv.
    assert (Ea : a = a / b * b)
      by (rewrite Z.mul_comm; apply Z.div_exact; assumption).
    rewrite Ea at 1. now apply js_div_num_exact.
  - intros Hrem z Hz. apply Hrem.
    apply js_div_num_integer in Hz; [| assumption].
    rewrite Hz. now apply Z.mod_mul.
Qed.

Lemma alu_DIV_bytes_witness :
  byte 7 /\ byte 2 /\ 2 <> 0 /\ 7 mod 2 <> 0 /\
  CPU.reg arith_cpu (num 0) = num 7 /\ CPU.reg arith_cpu (num 1) = num 2 /\
  CPU.reg (CPU.alu arith_cpu "DIV" (num 0) (num 1)) (num 0) <> num 3 /\
  CPU.clock (CPU.alu arith_cpu "DIV" (num 0) (num 1)) = CPU.clock arith_cpu.
Proof.
  assert (B7 : byte 7) by (unfold byte; lia).
  assert (B2 : byte 2) by (unfold byte; lia).
  assert (N2 : 2 <> 0) by lia.
  assert (R : 7 mod 2 <> 0) by (vm_compute; discriminate).
  assert (H0 : CPU.reg arith_cpu (num 0) = num 7) by (vm_compute; reflexivity).
  assert (H1 : CPU.reg arith_cpu (num 1) = num 2) by (vm_compute; reflexivity).
  destruct (alu_DIV_bytes arith_cpu (num 0) (num 1) 7 2 B7 B2 N2 H0 H1)
    as (_ & Hfrac & _ & Hclk).
  split; [exact B7|]. split; [exact B2|]. split; [exact N2|]. split; [exact R|].
  split; [exact H0|]. split; [exact H1|]. split; [exact (Hfrac R 3) | exact Hclk].
Defined.

(** ** Bitwise operations *)

Lemma int32_lxor (a b : Z) : int32 a -> int32 b -> int32 (Z.lxor a b).
Proof.
  rewrite !int32_shiftr, Z.shiftr_lxor.
  intros [-> | ->] [-> | ->]; simpl; auto.
Qed.

Lemma int32_lnot (a : Z) : int32 a -> int32 (Z.lnot a).
Proof. unfold int32, Z.lnot. lia. Qed.

Lemma alu_bitwise_result (this : CPU.t) (regA regB : value) :
  CPU.reg (CPU.alu this "AND" regA regB) regA
  = js_and (CPU.reg this regA) (CPU.reg this regB) /\
  CPU.reg (CPU.alu this "OR" regA regB) regA
  = js_or (CPU.reg this regA) (CPU.reg this regB) /\
  CPU.reg (CPU.alu this "XOR" regA regB) regA
  = js_xor (CPU.reg this regA) (CPU.reg this regB) /\
  CPU.reg (CPU.alu this "NOT" regA regB) regA = js_not (CPU.reg this regA).
Proof. repeat split; apply obj_set_same. Qed.

(** X10.  AND, OR and XOR on registers holding the 32-bit integers [a] and
    [b] leave their bitwise combination in [regA], and NOT leaves
    [- a - 1]: the complement is taken on 32 bits, so NOT of a byte is a
    negative number and not its 8-bit complement. *)
Theorem alu_bitwise_integers (this : CPU.t) (regA regB : value) (a b : Z) :
  int32 a -> int32 b ->
  CPU.reg this regA = num a -> CPU.reg this regB = num b ->
  CPU.reg (CPU.alu this "AND" regA regB) regA = num (Z.land a b) /\
  CPU.reg (CPU.alu this "OR" regA regB) regA = num (Z.lor a b) /\
  CPU.reg (CPU.alu this "XOR" regA regB) regA = num (Z.lxor a b) /\
  CPU.reg (CPU.alu this "NOT" regA regB) regA = num (- a - 1).
Proof.
  intros Ia Ib Ha Hb.
  destruct (alu_bitwise_result this regA regB) as (Hand & Hor & Hxor & Hnot).
  rewrite Hand, Hor, Hxor, Hnot, Ha, Hb.
  unfold js_and, js_or, js_xor, js_not.
  rewrite !ToInt32_num_small by assumption.
  repeat split.
Qed.

Lemma alu_bitwise_integers_witness :
  int32 7 /\ int32 2 /\
  CPU.reg arith_cpu (num 0) = num 7 /\ CPU.reg arith_cpu (num 1) = num 2 /\
  CPU.reg (CPU.alu arith_cpu "AND" (num 0) (num 1)) (num 0) = num (Z.land 7 2) /\
  CPU.reg (CPU.alu arith_cpu "NOT" (num 0) (num 1)) (num 0) = num (- 7 - 1).
Proof.
  assert (I7 : int32 7) by (unfold int32; lia).
  assert (I2 : int32 2) by (unfold int32; lia).
  assert (H0 : CPU.reg arith_cpu (num 0) = num 7) by (vm_compute; reflexivity).
  assert (H1 : CPU.reg arith_cpu (num 1) = num 2) by (vm_compute; reflexivity).
  destruct (alu_bitwise_integers arith_cpu (num 0) (num 1) 7 2 I7 I2 H0 H1)
    as (Hand & _ & _ & Hnot).
  split; [exact I7|]. split; [exact I2|]. split; [exact H0|]. split; [exact H1|].
  split; [exact Hand | exact Hnot].
Defined.

(** X11.  Whatever the registers hold, a number of any size, [NaN] or
    [undefined], the bitwise operations AND, OR, XOR and NOT leave a 32-bit
    integer in [regA]. *)
Theorem alu_bitwise_int32 (this : CPU.t) (regA regB : value) :
  (exists z : Z,
     int32 z /\ CPU.reg (CPU.alu this "AND" regA regB) regA = num z) /\
  (exists z : Z,
     int32 z /\ CPU.reg (CPU.alu this "OR" regA regB) regA = num z) /\
  (exists z : Z,
     int32 z /\ CPU.reg (CPU.alu this "XOR" regA regB) regA = num z) /\
  (exists z : Z,
     int32 z /\ CPU.reg (CPU.alu this "NOT" regA regB) regA = num z).
Proof.
  destruct (alu_bitwise_result this regA regB) as (Hand & Hor & Hxor & Hnot).
  pose proof (ToInt32_range (CPU.reg this regA)) as Ia.
  pose proof (ToInt32_range (CPU.reg this regB)) as Ib.
  rewrite Hand, Hor, Hxor, Hnot. unfold js_and, js_or, js_xor, js_not.
  repeat split; eexists; (split; [| reflexivity]).
  - now apply int32_land.
  - now apply int32_lor.
  - now apply int32_lxor.
  - now apply int32_lnot.
Qed.

(** X12.  XOR of a register with itself clears it, whatever it held. *)
Theorem XOR_self_clears (this : CPU.t) (regA : value) :
  CPU.reg (CPU.XOR this regA regA) regA = num 0.
Proof.
  unfold CPU.XOR.
  destruct (alu_bitwise_result this regA regA) as (_ & _ & Hxor & _).
  rewrite Hxor. unfold js_xor. now rewrite Z.lxor_nilpotent.
Qed.

(** ** More on the cycle *)

Ltac unfold_handlers :=
  unfold CPU.ADD, CPU.AND, CPU.OR, CPU.NOT, CPU.XOR, CPU.DEC, CPU.DIV,
    CPU.INC, CPU.MOD, CPU.MUL, CPU.SUB, CPU.CMP.

Lemma call_branchTable (h : handler) (this : CPU.t) (a b : value) :
  CPU.branchTable (fst (CPU.call h this a b)) = CPU.branchTable this.
Proof.
  destruct h; cbn [CPU.call fst]; unfold_handlers;
    try apply alu_branchTable; reflexivity.
Qed.

Lemma call_clock (h : handler) (this : CPU.t) (a b : value) :
  CPU.clock this = false -> CPU.clock (fst (CPU.call h this a b)) = false.
Proof.
  intros H. destruct h; cbn [CPU.call fst]; unfold_handlers;
    try (now apply alu_clock); try exact H; reflexivity.
Qed.

Lemma call_ram (h : handler) (this : CPU.t) (a b : value) :
  h <> this_PUSH -> h <> this_CALL ->
  CPU.ram (fst (CPU.call h this a b)) = CPU.ram this.
Proof.
  intros Hp Hc. destruct h; try contradiction; cbn [CPU.call fst];
    unfold_handlers; try apply alu_ram; reflexivity.
Qed.

(** A cycle whose opcode has a handler runs the handler on the state with
    the instruction register loaded, and then sets the program counter. *)
Lemma tick_known (this : CPU.t) (h : handler) :
  CPU.branchTable this (opcode_at this) = Some h ->
  exists pc : value,
    CPU.tick this
    = CPU.set_PC
        (fst (CPU.call h (CPU.set_IR this (opcode_at this))
                (operandA_at this) (operandB_at this)))
        pc.
Proof.
  unfold opcode_at, operandA_at, operandB_at. intros Hbt.
  unfold CPU.tick. cbn [CPU.set_IR CPU.branchTable CPU.IR CPU.ram CPU.PC].
  rewrite Hbt.
  destruct (CPU.call h _ _ _) as [s nextPC]. cbn [fst].
  destruct nextPC; eexists; reflexivity.
Qed.

Lemma tick_unknown (this : CPU.t) :
  CPU.branchTable this (opcode_at this) = None ->
  CPU.tick this
  = CPU.stopClock
      (CPU.console_error (CPU.set_IR this (opcode_at this))
         (Cat "Unknown opcode" (opcode_at this))).
Proof.
  unfold opcode_at. intros H. unfold CPU.tick.
  cbn [CPU.set_IR CPU.branchTable CPU.IR CPU.ram CPU.PC].
  now rewrite H.
Qed.

Lemma tick_branchTable (this : CPU.t) :
  CPU.branchTable (CPU.tick this) = CPU.branchTable this.
Proof.
  destruct (CPU.branchTable this (opcode_at this)) as [h|] eqn:Hbt.
  - destruct (tick_known this h Hbt) as [pc ->].
    cbn [CPU.set_PC CPU.branchTable]. now rewrite call_branchTable.
  - now rewrite tick_unknown.
Qed.

Lemma tick_clock (this : CPU.t) :
  CPU.clock this = false -> CPU.clock (CPU.tick this) = false.
Proof.
  intros H. destruct (CPU.branchTable this (opcode_at this)) as [h|] eqn:Hbt.
  - destruct (tick_known this h Hbt) as [pc ->].
    cbn [CPU.set_PC CPU.clock]. now apply call_clock.
  - now rewrite tick_unknown.
Qed.

(** X13.  Every cycle leaves the byte it fetched in the instruction
    register, whether or not the byte has a handler and whatever the handler
    does. *)
Theorem tick_fetches_IR (this : CPU.t) :
  CPU.IR (CPU.tick this) = RAM.read (CPU.ram this) (CPU.PC this).
Proof.
  destruct (CPU.branchTable this (opcode_at this)) as [h|] eqn:Hbt.
  - destruct (tick_known this h Hbt) as [pc ->].
    cbn [CPU.set_PC CPU.IR]. now rewrite call_IR.
  - now rewrite tick_unknown.
Qed.

(** X14.  The branch table is never modified after construction: no cycle,
    and no run of any length, changes it. *)
Theorem run_keeps_branchTable (n : nat) (this : CPU.t) :
  CPU.branchTable (CPU.tick this) = CPU.branchTable this /\
  CPU.branchTable (CPU.run n this) = CPU.branchTable this.
Proof.
  split; [apply tick_branchTable|].
  revert this. induction n as [| n IH]; intros this; cbn [CPU.run].
  - reflexivity.
  - destruct (CPU.clock this); [| reflexivity].
    now rewrite IH, tick_branchTable.
Qed.

(** X15.  Nothing in a cycle arms the clock: a cycle started on a processor
    whose clock is stopped leaves it stopped, and a run started on one
    executes nothing. *)
Theorem stopped_clock_stays_stopped (this : CPU.t) :
  CPU.clock this = false ->
  CPU.clock (CPU.tick this) = false /\
  (forall n : nat, CPU.run n this = this).
Proof.
  intros H. split; [now apply tick_clock|].
  intros n. now apply run_stopped.
Qed.

Lemma stopped_clock_stays_stopped_witness :
  CPU.clock (pokes cpu0 0 mult_program) = false /\
  CPU.clock (CPU.tick (pokes cpu0 0 mult_program)) = false /\
  CPU.run 3 (pokes cpu0 0 mult_program) = pokes cpu0 0 mult_program.
Proof.
  assert (H : CPU.clock (pokes cpu0 0 mult_program) = false) by reflexivity.
  destruct (stopped_clock_stays_stopped (pokes cpu0 0 mult_program) H)
    as [Ht Hr].
  split; [exact H|]. split; [exact Ht | exact (Hr 3%nat)].
Defined.

(** X16.  Only PUSH and CALL write to memory: a cycle that dispatches to
    neither, or to no handler at all, leaves the memory as it was. *)
Theorem tick_keeps_ram (this : CPU.t) :
  CPU.branchTable this (opcode_at this) <> Some this_PUSH ->
  CPU.branchTable this (opcode_at this) <> Some this_CALL ->
  CPU.ram (CPU.tick this) = CPU.ram this.
Proof.
  intros Hp Hc.
  destruct (CPU.branchTable this (opcode_at this)) as [h|] eqn:Hbt.
  - destruct (tick_known this h Hbt) as [pc ->].
    cbn [CPU.set_PC CPU.ram]. rewrite call_ram; [reflexivity | | ]; congruence.
  - now rewrite tick_unknown.
Qed.

Lemma tick_keeps_ram_witness :
  CPU.branchTable (pokes cpu0 0 mult_program)
    (opcode_at (pokes cpu0 0 mult_program)) <> Some this_PUSH /\
  CPU.branchTable (pokes cpu0 0 mult_program)
    (opcode_at (pokes cpu0 0 mult_program)) <> Some this_CALL /\
  CPU.ram (CPU.tick (pokes cpu0 0 mult_program))
  = CPU.ram (pokes cpu0 0 mult_program).
Proof.
  assert (Hp : CPU.branchTable (pokes cpu0 0 mult_program)
                 (opcode_at (pokes cpu0 0 mult_program)) <> Some this_PUSH)
    by (vm_compute; discriminate).
  assert (Hc : CPU.branchTable (pokes cpu0 0 mult_program)
                 (opcode_at (pokes cpu0 0 mult_program)) <> Some this_CALL)
    by (vm_compute; discriminate).
  split; [exact Hp|]. split; [exact Hc|].
  exact (tick_keeps_ram (pokes cpu0 0 mult_program) Hp Hc).
Defined.

(** ** Single instructions *)

Lemma tick_default (this : CPU.t) (h : handler) :
  CPU.branchTable this (opcode_at this) = Some h ->
  snd (CPU.call h (CPU.set_IR this (opcode_at this))
         (operandA_at this) (operandB_at this)) = VUndef ->
  CPU.tick this
  = CPU.set_PC
      (fst (CPU.call h (CPU.set_IR this (opcode_at this))
              (operandA_at this) (operandB_at this)))
      (js_add (CPU.PC this)
         (js_add (CPU.operandCount (opcode_at this)) (num 1))).
Proof.
  intros Hbt Hret.
  pose proof (call_PC (CPU.set_IR this (opcode_at this)) h
                (operandA_at this) (operandB_at this)) as Hpc.
  pose proof (call_IR (CPU.set_IR this (opcode_at this)) h
                (operandA_at this) (operandB_at this)) as Hir.
  revert Hret Hpc Hir.
  unfold opcode_at, operandA_at, operandB_at in *.
  unfold CPU.tick. cbn [CPU.set_IR CPU.branchTable CPU.IR CPU.ram CPU.PC].
  rewrite Hbt.
  destruct (CPU.call h _ _ _) as [s nextPC]. cbn [fst snd].
  intros -> -> ->. reflexivity.
Qed.

(** X17.  A cycle that dispatches to HLT stops the clock and ends the run.
    It changes no register and no memory cell and prints nothing; the
    program counter still moves past the instruction. *)
Theorem tick_HLT (this : CPU.t) :
  CPU.branchTable this (opcode_at this) = Some this_HLT ->
  CPU.clock (CPU.tick this) = false /\
  (forall n : nat, CPU.run n (CPU.tick this) = CPU.tick this) /\
  CPU.reg (CPU.tick this) = CPU.reg this /\
  CPU.ram (CPU.tick this) = CPU.ram this /\
  CPU.FL (CPU.tick this) = CPU.FL this /\
  CPU.stdout (CPU.tick this) = CPU.stdout this /\
  CPU.stderr (CPU.tick this) = CPU.stderr this /\
  CPU.PC (CPU.tick this)
  = js_add (CPU.PC this) (js_add (CPU.operandCount (opcode_at this)) (num 1)).
Proof.
  intros Hbt. rewrite (tick_default this this_HLT Hbt eq_refl).
  cbn [CPU.call fst]. unfold CPU.HLT.
  split; [reflexivity|]. split; [| repeat split].
  intros n. now apply run_stopped.
Qed.

Lemma tick_HLT_witness :
  CPU.branchTable (pokes cpu0 0 [0x01]) (opcode_at (pokes cpu0 0 [0x01]))
  = Some this_HLT /\
  CPU.clock (CPU.tick (CPU.startClock (pokes cpu0 0 [0x01]))) = false /\
  CPU.run 4 (CPU.tick (CPU.startClock (pokes cpu0 0 [0x01])))
  = CPU.tick (CPU.startClock (pokes cpu0 0 [0x01])).
Proof.
  assert (H : CPU.branchTable (pokes cpu0 0 [0x01])
                (opcode_at (pokes cpu0 0 [0x01])) = Some this_HLT)
    by (vm_compute; reflexivity).
  destruct (tick_HLT (CPU.startClock (pokes cpu0 0 [0x01])) H)
    as (Hclk & Hrun & _).
  split; [exact H|]. split; [exact Hclk | exact (Hrun 4%nat)].
Defined.

(** X18.  A cycle that dispatches to LDI stores its second operand byte in
    the register named by the first.  Every other register, the memory, the
    flags, the clock and both output streams are as before. *)
Theorem tick_LDI (this : CPU.t) :
  CPU.branchTable this (opcode_at this) = Some this_LDI ->
  CPU.reg (CPU.tick this) (operandA_at this) = operandB_at this /\
  (forall r : value,
     r <> operandA_at this -> CPU.reg (CPU.tick this) r = CPU.reg this r) /\
  CPU.ram (CPU.tick this) = CPU.ram this /\
  CPU.FL (CPU.tick this) = CPU.FL this /\
  CPU.clock (CPU.tick this) = CPU.clock this /\
  CPU.stdout (CPU.tick this) = CPU.stdout this /\
  CPU.stderr (CPU.tick this) = CPU.stderr this.
Proof.
  intros Hbt. rewrite (tick_default this this_LDI Hbt eq_refl).
  cbn [CPU.call fst]. unfold CPU.LDI. cpu_simpl.
  split; [apply obj_set_same|]. split; [| repeat split].
  intros r Hr. now apply obj_set_other.
Qed.

Lemma tick_LDI_witness :
  CPU.branchTable (pokes cpu0 0 mult_program)
    (opcode_at (pokes cpu0 0 mult_program)) = Some this_LDI /\
  num 1 <> operandA_at (pokes cpu0 0 mult_program) /\
  CPU.reg (CPU.tick (pokes cpu0 0 mult_program))
    (operandA_at (pokes cpu0 0 mult_program))
  = operandB_at (pokes cpu0 0 mult_program) /\
  CPU.reg (CPU.tick (pokes cpu0 0 mult_program)) (num 1)
  = CPU.reg (pokes cpu0 0 mult_program) (num 1).
Proof.
  assert (H : CPU.branchTable (pokes cpu0 0 mult_program)
                (opcode_at (pokes cpu0 0 mult_program)) = Some this_LDI)
    by (vm_compute; reflexivity).
  assert (Hr : num 1 <> operandA_at (pokes cpu0 0 mult_program)).
  { assert (E : operandA_at (pokes cpu0 0 mult_program) = num 0)
      by (vm_compute; reflexivity).
    rewrite E. apply num_neq. lia. }
  destruct (tick_LDI (pokes cpu0 0 mult_program) H) as (Hset & Hother & _).
  split; [exact H|]. split; [exact Hr|].
  split; [exact Hset | exact (Hother (num 1) Hr)].
Defined.

(** X19.  A cycle that dispatches to PRN appends the content of the register
    named by its operand to the standard output, and changes neither the
    registers, the memory, the flags, the clock nor the error stream. *)
Theorem tick_PRN (this : CPU.t) :
  CPU.branchTable this (opcode_at this) = Some this_PRN ->
  CPU.stdout (CPU.tick this)
  = CPU.stdout this ++ [CPU.reg this (operandA_at this)] /\
  CPU.reg (CPU.tick this) = CPU.reg this /\
  CPU.ram (CPU.tick this) = CPU.ram this /\
  CPU.FL (CPU.tick this) = CPU.FL this /\
  CPU.clock (CPU.tick this) = CPU.clock this /\
  CPU.stderr (CPU.tick this) = CPU.stderr this.
Proof.
  intros Hbt. rewrite (tick_default this this_PRN Hbt eq_refl).
  cbn [CPU.call fst]. unfold CPU.PRN. repeat split.
Qed.

Lemma tick_PRN_witness :
  CPU.branchTable prn_cpu (opcode_at prn_cpu) = Some this_PRN /\
  CPU.stdout (CPU.tick prn_cpu)
  = CPU.stdout prn_cpu ++ [CPU.reg prn_cpu (operandA_at prn_cpu)].
Proof.
  assert (H : CPU.branchTable prn_cpu (opcode_at prn_cpu) = Some this_PRN)
    by (vm_compute; reflexivity).
  split; [exact H|]. exact (proj1 (tick_PRN prn_cpu H)).
Defined.

(** ** More on the stack *)

Lemma pushHelper_ram_other (this : CPU.t) (v a : value) :
  a <> js_sub (CPU.reg this SP) (num 1) ->
  RAM.read (CPU.ram (CPU.pushHelper this v)) a = RAM.read (CPU.ram this) a.
Proof.
  intros H. unfold CPU.pushHelper. cpu_simpl.
  rewrite obj_set_same. now apply obj_set_other.
Qed.

(** X20.  PUSH moves the stack pointer one cell down and stores the value the
    register held before the push in the cell it then points at (for
    register 7 that is the stack pointer before the decrement).  No other
    register and no other memory cell changes, and there is no check that
    the new stack pointer is an address inside the memory. *)
Theorem PUSH_effect (this : CPU.t) (regNum : value) :
  CPU.reg (CPU.PUSH this regNum) SP = js_sub (CPU.reg this SP) (num 1) /\
  RAM.read (CPU.ram (CPU.PUSH this regNum)) (CPU.reg (CPU.PUSH this regNum) SP)
  = CPU.reg this regNum /\
  (forall r : value,
     r <> SP -> CPU.reg (CPU.PUSH this regNum) r = CPU.reg this r) /\
  (forall a : value,
     a <> js_sub (CPU.reg this SP) (num 1) ->
     RAM.read (CPU.ram (CPU.PUSH this regNum)) a = RAM.read (CPU.ram this) a).
Proof.
  unfold CPU.PUSH. split; [apply pushHelper_SP|].
  split; [apply pushHelper_top|].
  split; [intros r Hr; now apply pushHelper_reg|].
  intros a Ha. now apply pushHelper_ram_other.
Qed.

Lemma PUSH_effect_witness :
  num 0 <> SP /\ num 10 <> js_sub (CPU.reg push_cpu SP) (num 1) /\
  CPU.reg (CPU.PUSH push_cpu (num 0)) SP = js_sub (CPU.reg push_cpu SP) (num 1) /\
  CPU.reg (CPU.PUSH push_cpu (num 0)) (num 0) = CPU.reg push_cpu (num 0) /\
  RAM.read (CPU.ram (CPU.PUSH push_cpu (num 0))) (num 10)
  = RAM.read (CPU.ram push_cpu) (num 10).
Proof.
  assert (H0 : num 0 <> SP) by (apply num_neq; lia).
  assert (H10 : num 10 <> js_sub (CPU.reg push_cpu SP) (num 1)).
  { assert (E : CPU.reg push_cpu SP = num 0xF4) by (vm_compute; reflexivity).
    rewrite E, js_sub_num. apply num_neq. lia. }
  destruct (PUSH_effect push_cpu (num 0)) as (Hsp & _ & Hreg & Hram).
  split; [exact H0|]. split; [exact H10|]. split; [exact Hsp|].
  split; [exact (Hreg (num 0) H0) | exact (Hram (num 10) H10)].
Defined.

(** X21.  POP right after PUSH copies: whatever the two registers are,
    [PUSH(r); POP(r')] leaves in [r'] the value [r] held before the push. *)
Theorem PUSH_POP_copies (this : CPU.t) (r r' : value) :
  CPU.reg (CPU.POP (CPU.PUSH this r) r') r' = CPU.reg this r.
Proof. rewrite POP_reg. unfold CPU.PUSH. apply pushHelper_top. Qed.

(** ** Running off the program *)

(** X22.  On a processor with the branch table of the constructor, a cycle
    that fetches anything but an opcode constant (a data byte, or
    [undefined] when the program counter points outside the memory) reports
    it as unknown opcode, stops the clock and leaves the program counter and
    the registers where they were. *)
Theorem tick_not_an_opcode (this : CPU.t) (ram : RAM.t) :
  CPU.branchTable this = CPU.branchTable (CPU.new ram) ->
  ~ In (opcode_at this) opcodes ->
  CPU.stderr (CPU.tick this)
  = CPU.stderr this ++ [Cat "Unknown opcode" (opcode_at this)] /\
  CPU.clock (CPU.tick this) = false /\
  CPU.PC (CPU.tick this) = CPU.PC this /\
  CPU.reg (CPU.tick this) = CPU.reg this /\
  (forall n : nat, CPU.run n (CPU.tick this) = CPU.tick this).
Proof.
  intros Hbt Hin.
  assert (Hnone : CPU.branchTable this (opcode_at this) = None)
    by (rewrite Hbt; now apply branchTable_new_None).
  rewrite (tick_unknown this Hnone). repeat split.
  intros n. now apply run_stopped.
Qed.

Lemma tick_not_an_opcode_witness :
  CPU.branchTable off_cpu = CPU.branchTable (CPU.new (RAM.new 256)) /\
  ~ In (opcode_at off_cpu) opcodes /\
  opcode_at off_cpu = VUndef /\
  CPU.stderr (CPU.tick off_cpu) = [Cat "Unknown opcode" VUndef] /\
  CPU.clock (CPU.tick off_cpu) = false.
Proof.
  assert (Hbt : CPU.branchTable off_cpu = CPU.branchTable (CPU.new (RAM.new 256)))
    by reflexivity.
  assert (Hop : opcode_at off_cpu = VUndef) by (vm_compute; reflexivity).
  assert (Hin : ~ In (opcode_at off_cpu) opcodes).
  { rewrite Hop. unfold opcodes. simpl. intros H.
    repeat match goal with
           | H : _ \/ _ |- _ => destruct H as [H | H]
           end; try discriminate; contradiction. }
  destruct (tick_not_an_opcode off_cpu (RAM.new 256) Hbt Hin)
    as (Herr & Hclk & _).
  split; [exact Hbt|]. split; [exact Hin|]. split; [exact Hop|].
  split; [| exact Hclk].
  rewrite Herr, Hop. reflexivity.
Defined.

(** ** Operand counts *)

Lemma operandCount_arity (ram : RAM.t) (k : value) (h : handler) :
  CPU.branchTable (CPU.new ram) k = Some h ->
  CPU.operandCount k = num (arity h).
Proof.
  intros H. apply branchTable_new_Some in H.
  repeat match goal with
         | H : _ \/ _ |- _ => destruct H as [H | H]
         end; destruct H as [-> ->]; vm_compute; reflexivity.
Qed.

(** X23.  The two top bits of every opcode in the table of the constructor
    give the number of parameters of the handler stored under it, so a cycle
    of an instruction other than CALL and RET moves the program counter past
    the opcode byte and exactly the operand bytes its handler takes. *)
Theorem tick_skips_operands (this : CPU.t) (ram : RAM.t) (h : handler) :
  CPU.branchTable this = CPU.branchTable (CPU.new ram) ->
  CPU.branchTable this (opcode_at this) = Some h ->
  CPU.operandCount (opcode_at this) = num (arity h) /\
  (h <> this_CALL -> h <> this_RET ->
   CPU.PC (CPU.tick this) = js_add (CPU.PC this) (num (arity h + 1))).
Proof.
  intros Htab Hbt.
  assert (Hoc : CPU.operandCount (opcode_at this) = num (arity h))
    by (apply (operandCount_arity ram); now rewrite <- Htab).
  split; [exact Hoc|].
  intros Hc Hr.
  rewrite (tick_PC_non_transfer this h Hbt Hc Hr), Hoc, js_add_num.
  reflexivity.
Qed.

Lemma tick_skips_operands_witness :
  CPU.branchTable (pokes cpu0 0 mult_program)
  = CPU.branchTable (CPU.new (RAM.new 256)) /\
  CPU.branchTable (pokes cpu0 0 mult_program)
    (opcode_at (pokes cpu0 0 mult_program)) = Some this_LDI /\
  this_LDI <> this_CALL /\ this_LDI <> this_RET /\
  CPU.PC (CPU.tick (pokes cpu0 0 mult_program))
  = js_add (CPU.PC (pokes cpu0 0 mult_program)) (num (arity this_LDI + 1)).
Proof.
  assert (Htab : CPU.branchTable (pokes cpu0 0 mult_program)
                 = CPU.branchTable (CPU.new (RAM.new 256))) by reflexivity.
  assert (Hbt : CPU.branchTable (pokes cpu0 0 mult_program)
                  (opcode_at (pokes cpu0 0 mult_program)) = Some this_LDI)
    by (vm_compute; reflexivity).
  assert (Hc : this_LDI <> this_CALL) by discriminate.
  assert (Hr : this_LDI <> this_RET) by discriminate.
  split; [exact Htab|]. split; [exact Hbt|]. split; [exact Hc|].
  split; [exact Hr|].
  exact (proj2 (tick_skips_operands (pokes cpu0 0 mult_program) (RAM.new 256)
                  this_LDI Htab Hbt) Hc Hr).
Defined.

(** ** Loading *)

Lemma poke_read (this : CPU.t) (address v : value) :
  RAM.read (CPU.ram (CPU.poke this address v)) address = v.
Proof. unfold CPU.poke. cpu_simpl. apply obj_set_same. Qed.

(** X24.  [poke] writes one memory cell and nothing else: the cell then
    reads as the value poked, every other cell and every register is as
    before, and a cycle started with the program counter on that cell
    fetches the value poked as its opcode. *)
Theorem poke_then_fetch (this : CPU.t) (address v : value) :
  RAM.read (CPU.ram (CPU.poke this address v)) address = v /\
  (forall a : value,
     a <> address ->
     RAM.read (CPU.ram (CPU.poke this address v)) a
     = RAM.read (CPU.ram this) a) /\
  CPU.reg (CPU.poke this address v) = CPU.reg this /\
  CPU.PC (CPU.poke this address v) = CPU.PC this /\
  (address = CPU.PC this -> CPU.IR (CPU.tick (CPU.poke this address v)) = v).
Proof.
  split; [apply poke_read|].
  split; [intros a Ha; unfold CPU.poke; cpu_simpl; now apply obj_set_other|].
  split; [reflexivity|]. split; [reflexivity|].
  intros ->.
  destruct (CPU.branchTable (CPU.poke this (CPU.PC this) v)
              (opcode_at (CPU.poke this (CPU.PC this) v))) as [h|] eqn:Hbt.
  - destruct (tick_known _ h Hbt) as [pc ->].
    cbn [CPU.set_PC CPU.IR]. rewrite call_IR. cbn [CPU.set_IR CPU.IR].
    apply poke_read.
  - rewrite tick_unknown by exact Hbt. cpu_simpl. apply poke_read.
Qed.

Lemma poke_then_fetch_witness :
  num 1 <> num 0 /\ num 0 = CPU.PC cpu0 /\
  RAM.read (CPU.ram (CPU.poke cpu0 (num 0) (num 0x99))) (num 1)
  = RAM.read (CPU.ram cpu0) (num 1) /\
  CPU.IR (CPU.tick (CPU.poke cpu0 (num 0) (num 0x99))) = num 0x99.
Proof.
  assert (H1 : num 1 <> num 0) by (apply num_neq; lia).
  assert (H0 : num 0 = CPU.PC cpu0) by reflexivity.
  destruct (poke_then_fetch cpu0 (num 0) (num 0x99))
    as (_ & Hother & _ & _ & Hir).
  split; [exact H1|]. split; [exact H0|].
  split; [exact (Hother (num 1) H1) | exact (Hir H0)].
Defined.

(** ** Flags in general *)

Lemma ToInt32_js_or (a b : value) :
  ToInt32 (js_or a b) = Z.lor (ToInt32 a) (ToInt32 b).
Proof.
  unfold js_or. apply ToInt32_num_small, int32_lor; apply ToInt32_range.
Qed.

Lemma ToInt32_js_and (a b : value) :
  ToInt32 (js_and a b) = Z.land (ToInt32 a) (ToInt32 b).
Proof.
  unfold js_and. apply ToInt32_num_small, int32_land; apply ToInt32_range.
Qed.

Lemma ToInt32_js_not (a : value) : ToInt32 (js_not a) = Z.lnot (ToInt32 a).
Proof.
  unfold js_not. apply ToInt32_num_small, int32_lnot, ToInt32_range.
Qed.

(** X25.  [setFlag] with any mask: setting turns on exactly the bits of the
    mask, clearing turns off exactly the bits of the mask, and every bit
    outside the mask keeps its value; nothing but the flags register
    changes. *)
Theorem setFlag_bits (this : CPU.t) (flag : value) (i : Z) :
  flag_bit (CPU.FL (CPU.setFlag this flag true)) i
  = flag_bit (CPU.FL this) i || flag_bit flag i /\
  flag_bit (CPU.FL (CPU.setFlag this flag false)) i
  = flag_bit (CPU.FL this) i && negb (flag_bit flag i) /\
  (forall v : bool,
     CPU.reg (CPU.setFlag this flag v) = CPU.reg this /\
     CPU.ram (CPU.setFlag this flag v) = CPU.ram this /\
     CPU.PC (CPU.setFlag this flag v) = CPU.PC this).
Proof.
  unfold flag_bit, CPU.setFlag. cbn [CPU.set_FL CPU.FL].
  split; [| split].
  - rewrite ToInt32_js_or. apply Z.lor_spec.
  - rewrite ToInt32_js_and, ToInt32_js_not, Z.land_spec.
    destruct (Z.lt_ge_cases i 0) as [Hi | Hi].
    + now rewrite !Z.testbit_neg_r.
    + now rewrite Z.lnot_spec.
  - intros v. destruct v; repeat split.
Qed.

(** ** Stack accesses are not bounds-checked *)

(** X26.  POP on a new processor reads the cell at [0xF4]: with more than
    244 bytes of memory the target register receives 0, with less the read
    is outside the memory and the register receives [undefined].  Either
    way nothing is reported and the clock is left alone. *)
Theorem POP_on_new_processor (size : Z) (regNum : value) :
  0 <= size < 2^32 ->
  CPU.reg (CPU.POP (CPU.new (RAM.new size)) regNum) regNum
  = (if 0xF4 <? size then num 0 else VUndef) /\
  CPU.stderr (CPU.POP (CPU.new (RAM.new size)) regNum) = [] /\
  CPU.clock (CPU.POP (CPU.new (RAM.new size)) regNum) = false.
Proof.
  intros _. split; [| split; reflexivity].
  rewrite POP_reg.
  assert (Hsp : CPU.reg (CPU.new (RAM.new size)) SP = num 0xF4).
  { unfold CPU.new, CPU.setupBranchTable.
    cbn [CPU.reg CPU.set_branchTable CPU.set_reg]. apply obj_set_same. }
  rewrite Hsp. change (CPU.ram (CPU.new (RAM.new size))) with (RAM.new size).
  rewrite RAM_new_read, is_index_num. reflexivity.
Qed.

Lemma POP_on_new_processor_witness :
  0 <= 128 < 2^32 /\
  CPU.reg (CPU.POP (CPU.new (RAM.new 128)) (num 0)) (num 0) = VUndef.
Proof.
  assert (H : 0 <= 128 < 2^32) by lia.
  split; [exact H|].
  exact (proj1 (POP_on_new_processor 128 (num 0) H)).
Defined.
